(** * janMarg backend: the admin report workflow of [routes/admin.js]

    A shallow embedding of the Express handlers of [src/routes/admin.js]
    over an explicit model of the Prisma store.  Every handler is a function
    from the store to a new store and an HTTP response; a handler body runs
    in a small state-and-exit monad, so that an early [return res.status(..)]
    and an exception caught by the handler's [try/catch] keep the writes that
    were already issued (the handlers open no transaction).

    Every route sits behind [authenticate([..roles])]; the model starts from
    the authenticated caller, [req.user]. *)

From Stdlib Require Import ZArith NArith Ascii String List Permutation Sorted.
From stdpp Require Import base option list gmap strings fin_maps sorting.

Local Open Scope string_scope.
Local Open Scope Z_scope.

(** ** JavaScript strings

    [justification.trim().length] counts UTF-16 code units after removing
    the ECMAScript white space and line terminators at both ends, so a
    request text is a list of code units. *)

Definition jsstring := list N.

Definition is_js_whitespace (c : N) : bool :=
  ((9 <=? c) && (c <=? 13))%N          (* TAB LF VT FF CR *)
  || (c =? 32)%N || (c =? 160)%N       (* SPACE, NBSP *)
  || (c =? 5760)%N                     (* U+1680 *)
  || ((8192 <=? c) && (c <=? 8202))%N  (* U+2000 .. U+200A *)
  || (c =? 8232)%N || (c =? 8233)%N    (* LS, PS *)
  || (c =? 8239)%N || (c =? 8287)%N    (* U+202F, U+205F *)
  || (c =? 12288)%N || (c =? 65279)%N. (* U+3000, BOM *)

Fixpoint trimStart (s : jsstring) : jsstring :=
  match s with
  | [] => []
  | c :: rest => if is_js_whitespace c then trimStart rest else s
  end.

Definition trimEnd (s : jsstring) : jsstring := rev (trimStart (rev s)).

Definition trim (s : jsstring) : jsstring := trimEnd (trimStart s).

Definition js_length (s : jsstring) : Z := Z.of_nat (length s).

(** An ASCII literal as a JavaScript string. *)
Definition js (s : string) : jsstring :=
  map N_of_ascii (list_ascii_of_string s).

(** [!justification]: the body field is absent ([undefined]/[null]) or the
    empty string. *)
Definition falsy_text (j : option jsstring) : bool :=
  match j with
  | None => true
  | Some [] => true
  | Some (_ :: _) => false
  end.

(** [!justification || justification.trim().length < 10], for a body field
    that is a string or is absent. *)
Definition justification_rejected (j : option jsstring) : bool :=
  match j with
  | None => true
  | Some s => falsy_text j || (js_length (trim s) <? 10)
  end.

(** Truthiness of an id taken from the request body ([if (contractorId)],
    [&& duplicateOfId], [departmentId || ...]). *)
Definition truthy_id (i : option string) : bool :=
  match i with
  | Some (String _ _) => true
  | _ => false
  end.

(** ** The entities of the store *)

Module ReportStatus.
Inductive t :=
| OPEN | DUPLICATE | MERGED | VALIDATED | IN_BIDDING | ASSIGNED
| IN_PROGRESS | PENDING_CITIZEN_REVIEW | COMPLETED | VERIFIED
| CLOSED | REJECTED | AUTO_CLOSED.

#[global] Instance eq_dec : EqDecision t.
Proof. solve_decision. Defined.

(** [validStatuses.includes(status)] of PATCH /reports/:id/status *)
Definition parse (s : string) : option t :=
  if String.eqb s "OPEN" then Some OPEN
  else if String.eqb s "DUPLICATE" then Some DUPLICATE
  else if String.eqb s "MERGED" then Some MERGED
  else if String.eqb s "VALIDATED" then Some VALIDATED
  else if String.eqb s "IN_BIDDING" then Some IN_BIDDING
  else if String.eqb s "ASSIGNED" then Some ASSIGNED
  else if String.eqb s "IN_PROGRESS" then Some IN_PROGRESS
  else if String.eqb s "PENDING_CITIZEN_REVIEW" then Some PENDING_CITIZEN_REVIEW
  else if String.eqb s "COMPLETED" then Some COMPLETED
  else if String.eqb s "VERIFIED" then Some VERIFIED
  else if String.eqb s "CLOSED" then Some CLOSED
  else if String.eqb s "REJECTED" then Some REJECTED
  else if String.eqb s "AUTO_CLOSED" then Some AUTO_CLOSED
  else None.
End ReportStatus.

Module AssignmentStatus.
Inductive t := ASSIGNED | IN_PROGRESS | COMPLETED | CANCELLED.

#[global] Instance eq_dec : EqDecision t.
Proof. solve_decision. Defined.
End AssignmentStatus.

Module BidStatus.
Inductive t := PENDING | ACCEPTED | REJECTED.

#[global] Instance eq_dec : EqDecision t.
Proof. solve_decision. Defined.
End BidStatus.

Module ProofStatus.
Inductive t := PENDING | APPROVED | REJECTED.

#[global] Instance eq_dec : EqDecision t.
Proof. solve_decision. Defined.
End ProofStatus.

(** The moderation tags of POST /reports/:id/moderate. *)
Module ModAction.
Inductive t :=
| FLAG_SPAM | MARK_SENSITIVE | HIDE | APPROVE
| MARK_DUPLICATE | ESCALATE | REJECT | UNFLAG.

#[global] Instance eq_dec : EqDecision t.
Proof. solve_decision. Defined.

(** [validActions.includes(action)] of POST /reports/:id/moderate *)
Definition parse (s : string) : option t :=
  if String.eqb s "FLAG_SPAM" then Some FLAG_SPAM
  else if String.eqb s "MARK_SENSITIVE" then Some MARK_SENSITIVE
  else if String.eqb s "HIDE" then Some HIDE
  else if String.eqb s "APPROVE" then Some APPROVE
  else if String.eqb s "MARK_DUPLICATE" then Some MARK_DUPLICATE
  else if String.eqb s "ESCALATE" then Some ESCALATE
  else if String.eqb s "REJECT" then Some REJECT
  else if String.eqb s "UNFLAG" then Some UNFLAG
  else None.

(** The shorter list of PATCH /reports/:id/moderate. *)
Definition is_flag_action (a : t) : bool :=
  match a with
  | FLAG_SPAM | MARK_SENSITIVE | HIDE | APPROVE => true
  | _ => false
  end.
End ModAction.

(** Time stamps are milliseconds since the epoch, as [Date.now()] gives
    them. Ids are the opaque strings of the store. [noOfDuplicates] is the
    duplicate counter of a report: POST /api/reports/:id/duplicate of
    routes/report.js increments it on the report named by [duplicateOfId];
    no route of admin.js writes it. *)

Record Report := mkReport {
  r_status : ReportStatus.t;
  r_severity : Z;
  r_upvotes : Z;
  r_isSpam : bool;
  r_isSensitive : bool;
  r_isDuplicate : bool;
  r_duplicateOfId : option string;
  r_departmentId : option string;
  r_createdAt : Z;
  r_updatedAt : Z;
  r_closedAt : option Z;
  r_completedAt : option Z;
  r_noOfDuplicates : Z
}.

Record Bid := mkBid {
  b_reportId : string;
  b_contractorId : string;
  b_proposedCost : Z;
  b_estimatedDays : Z;
  b_status : BidStatus.t;
  b_acceptedAt : option Z;
  b_acceptedBy : option string;
  b_rejectedAt : option Z
}.

Record Assignment := mkAssignment {
  a_reportId : string;
  a_contractorId : string;
  a_assignedById : string;
  a_bidId : option string;
  a_agreedCost : option Z;
  a_deadlineAt : option Z;
  a_status : AssignmentStatus.t;
  a_completedAt : option Z;
  a_cancelledAt : option Z;
  a_cancelReason : option string
}.

Record Contractor := mkContractor {
  c_businessName : string;
  c_isBlocked : bool;
  c_blockReason : option jsstring;
  c_blockedAt : option Z;
  c_blockedBy : option string;
  c_updatedAt : Z
}.

Record CompletionProof := mkProof {
  p_assignmentId : string;
  p_status : ProofStatus.t;
  p_reviewedAt : option Z;
  p_reviewedBy : option string;
  p_reviewNotes : option jsstring
}.

(** The three append-only logs. The free-text description and the
    metadata object of an entry are left out. *)

Record ReportHistory := mkHistory {
  h_reportId : string;
  h_actorId : string;
  h_action : string;
  h_oldStatus : option ReportStatus.t;
  h_newStatus : option ReportStatus.t;
  h_justification : option jsstring;
  h_createdAt : Z
}.

Record AdminLog := mkAdminLog {
  l_adminId : string;
  l_adminRole : string;
  l_entityType : string;
  l_entityId : string;
  l_actionType : string;
  l_justificationMessage : option jsstring;
  l_createdAt : Z
}.

Record ModeratorAction := mkModeratorAction {
  m_moderatorId : string;
  m_reportId : string;
  m_action : ModAction.t;
  m_justification : option jsstring;
  m_createdAt : Z
}.

Record Subscription := mkSubscription {
  s_reportId : string;
  s_userId : string
}.

Record DB := mkDB {
  reports : gmap string Report;
  bids : gmap string Bid;
  assignments : gmap string Assignment;
  contractors : gmap string Contractor;
  proofs : gmap string CompletionProof;
  subscriptions : list Subscription;
  reportHistory : list ReportHistory;
  adminLog : list AdminLog;
  moderatorAction : list ModeratorAction
}.

Definition empty_db : DB := mkDB ∅ ∅ ∅ ∅ ∅ [] [] [] [].

(** ** What the Prisma schema fixes

    [prisma/schema.prisma] is not among the sources. The handlers use
    [Report.assignment] as a to-one relation (the filter
    [assignment: { contractorId }] and the nested [assignment: { create }]
    of admin.js), which Prisma accepts only when [Assignment.reportId] is
    unique; the store then refuses a second Assignment row for a report.
    The constraint is kept as a parameter of the store. *)

Record Schema := mkSchema {
  assignment_reportId_unique : bool
}.

(** ** Handler bodies *)

Inductive Response :=
| Success (message : string)
| Failure (status : Z) (message : string).

Inductive Outcome (A : Type) :=
| Value (a : A)
| Reply (r : Response)
| Thrown.

Arguments Value {A} a.
Arguments Reply {A} r.
Arguments Thrown {A}.

Definition Handler (A : Type) : Type := DB -> DB * Outcome A.

Definition pure {A} (a : A) : Handler A := fun db => (db, Value a).

Definition bind {A B} (m : Handler A) (k : A -> Handler B) : Handler B :=
  fun db =>
    match m db with
    | (db', Value a) => k a db'
    | (db', Reply r) => (db', Reply r)
    | (db', Thrown) => (db', Thrown)
    end.

Notation "'let*' x := m 'in' k" := (bind m (fun x => k))
  (at level 10, x name, m at level 100, k at level 200).
Notation "'exec' m 'in' k" := (bind m (fun _ => k))
  (at level 10, m at level 100, k at level 200).

(** [return res.status(code).json(..)] *)
Definition reply {A} (r : Response) : Handler A := fun db => (db, Reply r).

(** An exception: a store error or a property read on [null]. *)
Definition throw {A} : Handler A := fun db => (db, Thrown).

Definition require {A} (o : option A) : Handler A :=
  match o with
  | Some a => pure a
  | None => throw
  end.

Definition when_ (b : bool) (m : Handler unit) : Handler unit :=
  if b then m else pure tt.

Definition read {A} (f : DB -> A) : Handler A := fun db => (db, Value (f db)).

Definition write (f : DB -> DB) : Handler unit := fun db => (f db, Value tt).

(** The [try { .. } catch (error) { res.status(500).json(..) }] around
    every handler body. *)
Definition run (catch_message : string) (body : Handler Response)
  : DB -> DB * Response :=
  fun db =>
    match body db with
    | (db', Value r) => (db', r)
    | (db', Reply r) => (db', r)
    | (db', Thrown) => (db', Failure 500 catch_message)
    end.

(** ** The store operations the handlers call *)

Definition set_reports (f : gmap string Report -> gmap string Report) (db : DB) : DB :=
  mkDB (f (reports db)) (bids db) (assignments db) (contractors db) (proofs db)
       (subscriptions db) (reportHistory db) (adminLog db) (moderatorAction db).

Definition set_bids (f : gmap string Bid -> gmap string Bid) (db : DB) : DB :=
  mkDB (reports db) (f (bids db)) (assignments db) (contractors db) (proofs db)
       (subscriptions db) (reportHistory db) (adminLog db) (moderatorAction db).

Definition set_assignments (f : gmap string Assignment -> gmap string Assignment) (db : DB) : DB :=
  mkDB (reports db) (bids db) (f (assignments db)) (contractors db) (proofs db)
       (subscriptions db) (reportHistory db) (adminLog db) (moderatorAction db).

Definition set_contractors (f : gmap string Contractor -> gmap string Contractor) (db : DB) : DB :=
  mkDB (reports db) (bids db) (assignments db) (f (contractors db)) (proofs db)
       (subscriptions db) (reportHistory db) (adminLog db) (moderatorAction db).

Definition set_proofs (f : gmap string CompletionProof -> gmap string CompletionProof) (db : DB) : DB :=
  mkDB (reports db) (bids db) (assignments db) (contractors db) (f (proofs db))
       (subscriptions db) (reportHistory db) (adminLog db) (moderatorAction db).

Definition add_history (e : ReportHistory) (db : DB) : DB :=
  mkDB (reports db) (bids db) (assignments db) (contractors db) (proofs db)
       (subscriptions db) (reportHistory db ++ [e]) (adminLog db) (moderatorAction db).

Definition add_adminLog (e : AdminLog) (db : DB) : DB :=
  mkDB (reports db) (bids db) (assignments db) (contractors db) (proofs db)
       (subscriptions db) (reportHistory db) (adminLog db ++ [e]) (moderatorAction db).

Definition add_moderatorAction (e : ModeratorAction) (db : DB) : DB :=
  mkDB (reports db) (bids db) (assignments db) (contractors db) (proofs db)
       (subscriptions db) (reportHistory db) (adminLog db) (moderatorAction db ++ [e]).

(** [prisma.<model>.update({ where: { id }, data })]: the row must exist,
    otherwise the client throws. The updated row is returned. *)
Definition update_row {V} (table : DB -> gmap string V)
    (set : (gmap string V -> gmap string V) -> DB -> DB)
    (id : string) (data : V -> V) : Handler V :=
  let* row := read (fun db => table db !! id) in
  let* old := require row in
  exec write (set (insert id (data old))) in
  pure (data old).

(** [prisma.<model>.updateMany({ where, data })] *)
Definition updateMany_rows {V} (table : DB -> gmap string V)
    (set : (gmap string V -> gmap string V) -> DB -> DB)
    (where_ : string -> V -> bool) (data : V -> V) : Handler unit :=
  write (set (map_imap (fun id row => Some (if where_ id row then data row else row)))).

(** What a query asks of a relation. The Prisma client checks the arguments
    of a query before it calls the store, and refuses a relation that is
    given both [select] and [include] with a validation error, whatever the
    schema. *)
Record RelationArgs := mkRelationArgs {
  with_select : bool;
  with_include : bool
}.

Definition valid_args (args : RelationArgs) : bool :=
  negb (with_select args && with_include args).

(** [prisma.<model>.findUnique({ where: { id }, include })] *)
Definition findUnique {V} (table : DB -> gmap string V) (id : string)
    (included : list RelationArgs) : Handler (option V) :=
  if forallb valid_args included
  then read (fun db => table db !! id)
  else throw.

(** Is there an Assignment row for this report already? *)
Definition has_assignment (rid : string) (db : DB) : bool :=
  bool_decide (map_Exists (fun _ a => a_reportId a = rid) (assignments db)).

(** [prisma.assignment.create]: the generated id must be new and, under the
    to-one relation, the report must have no Assignment yet. *)
Definition assignment_create (sch : Schema) (id : string) (a : Assignment) : Handler unit :=
  let* taken := read (fun db => bool_decide (is_Some (assignments db !! id))) in
  let* dup := read (has_assignment (a_reportId a)) in
  if taken || (assignment_reportId_unique sch && dup)
  then throw
  else write (set_assignments (insert id a)).

(** The authenticated caller ([req.user]), the clock and the id the store
    generates for a created row. One request reads the clock once. *)
Record Env := mkEnv {
  user_id : string;
  user_role : string;
  now : Z;
  new_id : string
}.

(** ** PATCH /api/admin/reports/:id/status *)

Definition status_data (env : Env) (status : ReportStatus.t) (r : Report) : Report :=
  mkReport status (r_severity r) (r_upvotes r) (r_isSpam r) (r_isSensitive r)
    (r_isDuplicate r) (r_duplicateOfId r) (r_departmentId r) (r_createdAt r)
    (now env)
    (if decide (status = ReportStatus.CLOSED) then Some (now env) else r_closedAt r)
    (r_completedAt r) (r_noOfDuplicates r).

Definition updateStatus_body (env : Env) (id : string) (status : string)
    (justification : option jsstring) : Handler Response :=
  if justification_rejected justification
  then reply (Failure 400 "Justification is required and must be at least 10 characters")
  else
    match ReportStatus.parse status with
    | None => reply (Failure 400 "Invalid status value")
    | Some target =>
        let* existingReport := read (fun db => reports db !! id) in
        match existingReport with
        | None => reply (Failure 404 "Report not found")
        | Some existing =>
            let* updatedReport := update_row reports set_reports id (status_data env target) in
            exec write (add_history
              (mkHistory id (user_id env) "STATUS_CHANGED"
                 (Some (r_status existing)) (Some target) justification (now env))) in
            exec write (add_adminLog
              (mkAdminLog (user_id env) (user_role env) "REPORT" id "STATUS_CHANGED"
                 justification (now env))) in
            pure (Success "Report status updated successfully")
        end
    end.

Definition updateStatus env id status justification : DB -> DB * Response :=
  run "Failed to update report status" (updateStatus_body env id status justification).

(** ** PATCH /api/admin/reports/:id/assign

    [deadline] is [None] for an absent or falsy body field and [Some t] for
    a value that [new Date(deadline)] reads as the instant [t]. *)

Definition assign_data (env : Env) (departmentId : option string) (r : Report) : Report :=
  mkReport ReportStatus.ASSIGNED (r_severity r) (r_upvotes r) (r_isSpam r)
    (r_isSensitive r) (r_isDuplicate r) (r_duplicateOfId r)
    (if truthy_id departmentId then departmentId else r_departmentId r)
    (r_createdAt r) (now env) (r_closedAt r) (r_completedAt r)
    (r_noOfDuplicates r).

Definition assignReport_body (sch : Schema) (env : Env) (id : string)
    (contractorId departmentId : option string) (deadline : option Z)
    (justification : option jsstring) : Handler Response :=
  if justification_rejected justification
  then reply (Failure 400 "Justification is required for assignment (min 10 characters)")
  else
    let* report := read (fun db => reports db !! id) in
    match report with
    | None => reply (Failure 404 "Report not found")
    | Some r =>
        exec
          match contractorId with
          | Some (String _ _ as cid) =>
              let* contractor := read (fun db => contractors db !! cid) in
              match contractor with
              | None => reply (Failure 404 "Contractor not found")
              | Some _ =>
                  (* the nested [assignment: { create }] of the report update *)
                  assignment_create sch (new_id env)
                    (mkAssignment id cid (user_id env) None None deadline
                       AssignmentStatus.ASSIGNED None None None)
              end
          | _ => pure tt
          end in
        let* updatedReport := update_row reports set_reports id (assign_data env departmentId) in
        exec write (add_history
          (mkHistory id (user_id env) "REPORT_ASSIGNED"
             (Some (r_status r)) (Some ReportStatus.ASSIGNED) justification (now env))) in
        exec write (add_adminLog
          (mkAdminLog (user_id env) (user_role env) "REPORT" id "ASSIGNED"
             justification (now env))) in
        pure (Success "Report assigned successfully")
    end.

Definition assignReport sch env id contractorId departmentId deadline justification
  : DB -> DB * Response :=
  run "Failed to assign report"
    (assignReport_body sch env id contractorId departmentId deadline justification).

(** ** POST /api/admin/reports/:id/moderate

    [severity] is [Some n] for a body field that [parseInt] reads as the
    integer [n], [isSpam] and [isSensitive] are [None] when [undefined]. *)

Definition moderate_data (env : Env) (action : ModAction.t)
    (isSpam isSensitive : option bool) (duplicateOfId : option string)
    (severity : option Z) (r : Report) : Report :=
  let dup := bool_decide (action = ModAction.MARK_DUPLICATE) && truthy_id duplicateOfId in
  mkReport
    (if dup then ReportStatus.DUPLICATE else r_status r)
    (match severity with Some n => n | None => r_severity r end)
    (r_upvotes r)
    (match isSpam with Some b => b | None => r_isSpam r end)
    (match isSensitive with Some b => b | None => r_isSensitive r end)
    (if dup then true else r_isDuplicate r)
    (if dup then duplicateOfId else r_duplicateOfId r)
    (r_departmentId r) (r_createdAt r) (now env) (r_closedAt r) (r_completedAt r)
    (r_noOfDuplicates r).

Definition moderateReport_body (env : Env) (id : string) (action : string)
    (justification : option jsstring) (isSpam isSensitive : option bool)
    (duplicateOfId : option string) (severity : option Z) : Handler Response :=
  match ModAction.parse action with
  | None => reply (Failure 400 "Invalid moderation action")
  | Some act =>
      if justification_rejected justification
      then reply (Failure 400 "Justification is required for moderation (min 10 characters)")
      else
        let* report := read (fun db => reports db !! id) in
        match report with
        | None => reply (Failure 404 "Report not found")
        | Some r =>
            let* updatedReport := update_row reports set_reports id
              (moderate_data env act isSpam isSensitive duplicateOfId severity) in
            exec write (add_moderatorAction
              (mkModeratorAction (user_id env) id act justification (now env))) in
            exec write (add_history
              (mkHistory id (user_id env) "MODERATED" None None justification (now env))) in
            exec write (add_adminLog
              (mkAdminLog (user_id env) (user_role env) "REPORT" id "APPROVED"
                 justification (now env))) in
            pure (Success "Report moderated successfully")
        end
  end.

Definition moderateReport env id action justification isSpam isSensitive duplicateOfId severity
  : DB -> DB * Response :=
  run "Failed to moderate report"
    (moderateReport_body env id action justification isSpam isSensitive duplicateOfId severity).

(** ** PATCH /api/admin/reports/:id/moderate

    The body carries [reason], which is logged and never checked. *)

Definition flag_data (env : Env) (isSpam isSensitive : option bool) (r : Report) : Report :=
  mkReport (r_status r) (r_severity r) (r_upvotes r)
    (match isSpam with Some b => b | None => r_isSpam r end)
    (match isSensitive with Some b => b | None => r_isSensitive r end)
    (r_isDuplicate r) (r_duplicateOfId r) (r_departmentId r) (r_createdAt r)
    (now env) (r_closedAt r) (r_completedAt r)
    (r_noOfDuplicates r).

Definition flagReport_body (env : Env) (id : string) (action : string)
    (reason : option jsstring) (isSpam isSensitive : option bool) : Handler Response :=
  match ModAction.parse action with
  | Some act =>
      if ModAction.is_flag_action act then
        let* report := read (fun db => reports db !! id) in
        match report with
        | None => reply (Failure 404 "Report not found")
        | Some r =>
            let* updatedReport := update_row reports set_reports id
              (flag_data env isSpam isSensitive) in
            exec write (add_moderatorAction
              (mkModeratorAction (user_id env) id act reason (now env))) in
            exec write (add_history
              (mkHistory id (user_id env) "MODERATED" None None reason (now env))) in
            pure (Success "Report moderated successfully")
        end
      else reply (Failure 400 "Invalid moderation action")
  | None => reply (Failure 400 "Invalid moderation action")
  end.

Definition flagReport env id action reason isSpam isSensitive : DB -> DB * Response :=
  run "Failed to moderate report" (flagReport_body env id action reason isSpam isSensitive).

(** ** PATCH /api/admin/reports/:id/escalate *)

Definition escalate_data (env : Env) (r : Report) : Report :=
  mkReport (r_status r) (Z.min (r_severity r + 1) 5) (r_upvotes r) (r_isSpam r)
    (r_isSensitive r) (r_isDuplicate r) (r_duplicateOfId r) (r_departmentId r)
    (r_createdAt r) (now env) (r_closedAt r) (r_completedAt r)
    (r_noOfDuplicates r).

Definition escalateReport_body (env : Env) (id : string) (reason : option jsstring)
  : Handler Response :=
  let* report := read (fun db => reports db !! id) in
  match report with
  | None => reply (Failure 404 "Report not found")
  | Some r =>
      let* updatedReport := update_row reports set_reports id (escalate_data env) in
      exec write (add_history
        (mkHistory id (user_id env) "ESCALATED" None None reason (now env))) in
      pure (Success "Report escalated successfully")
  end.

Definition escalateReport env id reason : DB -> DB * Response :=
  run "Failed to escalate report" (escalateReport_body env id reason).

(** ** POST /api/admin/reports/:id/bid/assign

    The bid is asked for with its contractor and its report included, and
    the query gives the contractor both a [select] and an [include]: the
    client refuses it, so the handler leaves through its [catch] before any
    of the statements that follow. They are kept as the source has them.
    [deadline] is as in the direct assignment. *)

(** [include: { contractor: { select: {..}, include: { user: {..} } },
               report: true }] *)
Definition bid_include : list RelationArgs :=
  [ mkRelationArgs true true; mkRelationArgs false false ].

Definition accept_data (env : Env) (b : Bid) : Bid :=
  mkBid (b_reportId b) (b_contractorId b) (b_proposedCost b) (b_estimatedDays b)
    BidStatus.ACCEPTED (Some (now env)) (Some (user_id env)) (b_rejectedAt b).

Definition reject_data (env : Env) (b : Bid) : Bid :=
  mkBid (b_reportId b) (b_contractorId b) (b_proposedCost b) (b_estimatedDays b)
    BidStatus.REJECTED (b_acceptedAt b) (b_acceptedBy b) (Some (now env)).

Definition assigned_data (env : Env) (r : Report) : Report :=
  mkReport ReportStatus.ASSIGNED (r_severity r) (r_upvotes r) (r_isSpam r)
    (r_isSensitive r) (r_isDuplicate r) (r_duplicateOfId r) (r_departmentId r)
    (r_createdAt r) (now env) (r_closedAt r) (r_completedAt r)
    (r_noOfDuplicates r).

(** [deadline ? new Date(deadline)
              : new Date(Date.now() + (bid.estimatedDays * 24 * 60 * 60 * 1000))] *)
Definition bid_deadline (env : Env) (deadline : option Z) (b : Bid) : Z :=
  match deadline with
  | Some t => t
  | None => now env + b_estimatedDays b * 24 * 60 * 60 * 1000
  end.

Definition bid_assignment (env : Env) (id bidId : string) (deadline : option Z) (b : Bid)
  : Assignment :=
  mkAssignment id (b_contractorId b) (user_id env) (Some bidId)
    (Some (b_proposedCost b)) (Some (bid_deadline env deadline b))
    AssignmentStatus.ASSIGNED None None None.

Definition assignBid_body (sch : Schema) (env : Env) (id bidId : string)
    (justification : option jsstring) (deadline : option Z) : Handler Response :=
  if justification_rejected justification
  then reply (Failure 400 "Justification is required for bid assignment (min 10 characters)")
  else
    let* bid := findUnique bids bidId bid_include in
    match bid with
    | None => reply (Failure 404 "Bid not found")
    | Some b =>
        let* bid_contractor := read (fun db => contractors db !! b_contractorId b) in
        let* bid_report := read (fun db => reports db !! b_reportId b) in
        if negb (String.eqb (b_reportId b) id)
        then reply (Failure 400 "Bid does not belong to this report")
        else
          let* updatedBid := update_row bids set_bids bidId (accept_data env) in
          exec assignment_create sch (new_id env) (bid_assignment env id bidId deadline b) in
          let* updatedReport := update_row reports set_reports id (assigned_data env) in
          exec updateMany_rows bids set_bids
            (fun i o => String.eqb (b_reportId o) id && negb (String.eqb i bidId))
            (reject_data env) in
          let* contractor := require bid_contractor in
          let* report := require bid_report in
          exec write (add_history
            (mkHistory id (user_id env) "BID_ASSIGNED"
               (Some (r_status report)) (Some ReportStatus.ASSIGNED) justification (now env))) in
          exec write (add_adminLog
            (mkAdminLog (user_id env) (user_role env) "BID" bidId "ASSIGNED"
               justification (now env))) in
          pure (Success "Bid assigned successfully")
    end.

Definition assignBid sch env id bidId justification deadline : DB -> DB * Response :=
  run "Failed to assign bid" (assignBid_body sch env id bidId justification deadline).

(** ** PATCH /api/admin/contractors/:id/block

    [isBlocked] is [None] when the body has no such field: the store then
    leaves the column as it is, and the handler takes the unblock branch. *)

Definition truthy_flag (b : option bool) : bool :=
  match b with Some true => true | _ => false end.

Definition block_data (env : Env) (isBlocked : option bool)
    (justification : option jsstring) (c : Contractor) : Contractor :=
  mkContractor (c_businessName c)
    (match isBlocked with Some b => b | None => c_isBlocked c end)
    (if truthy_flag isBlocked then justification else None)
    (if truthy_flag isBlocked then Some (now env) else None)
    (if truthy_flag isBlocked then Some (user_id env) else None)
    (now env).

Definition cancel_data (env : Env) (a : Assignment) : Assignment :=
  mkAssignment (a_reportId a) (a_contractorId a) (a_assignedById a) (a_bidId a)
    (a_agreedCost a) (a_deadlineAt a) AssignmentStatus.CANCELLED (a_completedAt a)
    (Some (now env)) (Some "Contractor blocked by admin").

(** [status: { in: ["ASSIGNED", "IN_PROGRESS"] }] *)
Definition in_flight (a : Assignment) : bool :=
  match a_status a with
  | AssignmentStatus.ASSIGNED | AssignmentStatus.IN_PROGRESS => true
  | _ => false
  end.

Definition blockContractor_body (env : Env) (id : string) (isBlocked : option bool)
    (justification : option jsstring) : Handler Response :=
  if justification_rejected justification
  then reply (Failure 400
    "Justification is required for contractor blocking/unblocking (min 10 characters)")
  else
    let* contractor := read (fun db => contractors db !! id) in
    match contractor with
    | None => reply (Failure 404 "Contractor not found")
    | Some c =>
        let* updatedContractor := update_row contractors set_contractors id
          (block_data env isBlocked justification) in
        exec when_ (truthy_flag isBlocked)
          (updateMany_rows assignments set_assignments
             (fun _ a => String.eqb (a_contractorId a) id && in_flight a)
             (cancel_data env)) in
        exec write (add_adminLog
          (mkAdminLog (user_id env) (user_role env) "CONTRACTOR" id
             (if truthy_flag isBlocked then "BLOCKED" else "UNBLOCKED")
             justification (now env))) in
        pure (Success (if truthy_flag isBlocked
                       then "Contractor blocked successfully"
                       else "Contractor unblocked successfully"))
    end.

Definition blockContractor env id isBlocked justification : DB -> DB * Response :=
  run "Failed to block contractor" (blockContractor_body env id isBlocked justification).

(** ** PATCH /api/admin/proofs/:id/approve

    [isApproved] is the truth value of the body field. The proof is read
    with [assignment.report] and [assignment.contractor] included. *)

Definition review_data (env : Env) (isApproved : bool) (justification : option jsstring)
    (p : CompletionProof) : CompletionProof :=
  mkProof (p_assignmentId p)
    (if isApproved then ProofStatus.APPROVED else ProofStatus.REJECTED)
    (Some (now env)) (Some (user_id env)) justification.

Definition complete_assignment_data (env : Env) (a : Assignment) : Assignment :=
  mkAssignment (a_reportId a) (a_contractorId a) (a_assignedById a) (a_bidId a)
    (a_agreedCost a) (a_deadlineAt a) AssignmentStatus.COMPLETED (Some (now env))
    (a_cancelledAt a) (a_cancelReason a).

Definition complete_report_data (env : Env) (r : Report) : Report :=
  mkReport ReportStatus.COMPLETED (r_severity r) (r_upvotes r) (r_isSpam r)
    (r_isSensitive r) (r_isDuplicate r) (r_duplicateOfId r) (r_departmentId r)
    (r_createdAt r) (now env) (r_closedAt r) (Some (now env))
    (r_noOfDuplicates r).

Definition approveProof_body (env : Env) (id : string) (isApproved : bool)
    (justification : option jsstring) : Handler Response :=
  if justification_rejected justification
  then reply (Failure 400
    "Justification is required for proof approval/rejection (min 10 characters)")
  else
    let* proof := read (fun db => proofs db !! id) in
    match proof with
    | None => reply (Failure 404 "Proof not found")
    | Some p =>
        let* proof_assignment := read (fun db => assignments db !! p_assignmentId p) in
        let* proof_report := read (fun db =>
          a ← proof_assignment; r ← reports db !! a_reportId a; Some (a_reportId a)) in
        let* proof_contractor := read (fun db =>
          a ← proof_assignment; contractors db !! a_contractorId a) in
        let* updatedProof := update_row proofs set_proofs id
          (review_data env isApproved justification) in
        exec when_ isApproved
          (let* a := update_row assignments set_assignments (p_assignmentId p)
                       (complete_assignment_data env) in
           let* report_id := require proof_report in
           let* r := update_row reports set_reports report_id (complete_report_data env) in
           pure tt) in
        let* report_id := require proof_report in
        let* contractor := require proof_contractor in
        exec write (add_history
          (mkHistory report_id (user_id env)
             (if isApproved then "PROOF_APPROVED" else "PROOF_REJECTED")
             None None justification (now env))) in
        exec write (add_adminLog
          (mkAdminLog (user_id env) (user_role env) "PROOF" id
             (if isApproved then "APPROVED" else "REJECTED")
             justification (now env))) in
        pure (Success (if isApproved
                       then "Proof approved successfully"
                       else "Proof rejected successfully"))
    end.

Definition approveProof env id isApproved justification : DB -> DB * Response :=
  run "Failed to review proof" (approveProof_body env id isApproved justification).

(** ** The privileged requests of the router, and their dispatch *)

Inductive Request :=
| PatchStatus (id status : string) (justification : option jsstring)
| PatchAssign (id : string) (contractorId departmentId : option string)
    (deadline : option Z) (justification : option jsstring)
| PostModerate (id action : string) (justification : option jsstring)
    (isSpam isSensitive : option bool) (duplicateOfId : option string)
    (severity : option Z)
| PatchModerate (id action : string) (reason : option jsstring)
    (isSpam isSensitive : option bool)
| PatchEscalate (id : string) (reason : option jsstring)
| PostBidAssign (id bidId : string) (justification : option jsstring)
    (deadline : option Z)
| PatchBlock (id : string) (isBlocked : option bool) (justification : option jsstring)
| PatchProof (id : string) (isApproved : bool) (justification : option jsstring).

Definition handle (sch : Schema) (env : Env) (req : Request) : DB -> DB * Response :=
  match req with
  | PatchStatus id status j => updateStatus env id status j
  | PatchAssign id c d dl j => assignReport sch env id c d dl j
  | PostModerate id a j sp se dup sev => moderateReport env id a j sp se dup sev
  | PatchModerate id a reason sp se => flagReport env id a reason sp se
  | PatchEscalate id reason => escalateReport env id reason
  | PostBidAssign id bidId j dl => assignBid sch env id bidId j dl
  | PatchBlock id b j => blockContractor env id b j
  | PatchProof id ok j => approveProof env id ok j
  end.

(** The store after a sequence of requests, one served after the other. *)
Fixpoint serve (sch : Schema) (trace : list (Env * Request)) (db : DB) : DB :=
  match trace with
  | [] => db
  | (env, req) :: rest => serve sch rest (handle sch env req db).1
  end.

(** ** GET /api/admin/reports and GET /api/admin/reports/:id *)

(** [report._count.subscriptions] *)
Definition subscription_count (db : DB) (id : string) : Z :=
  Z.of_nat (length (filter (fun s => s_reportId s = id) (subscriptions db))).

(** [(report.severity * 20) + (report.upvotes * 2) +
     (report._count.subscriptions * 5)] *)
Definition priorityScore (r : Report) (subscriptionCount : Z) : Z :=
  (r_severity r * 20) + (r_upvotes r * 2) + (subscriptionCount * 5).

(** The query string of the listing. [q_rest] stands for the filters over
    columns and relations that the model of a report leaves out ([wardId],
    [departmentId], [issueTypeId], [assignedTo], the date range and the
    text search). *)
Record Query := mkQuery {
  q_status : option ReportStatus.t;
  q_severity : option Z;
  q_isSpam : option string;
  q_isSensitive : option string;
  q_priority : option string;
  q_rest : string -> Report -> bool;
  q_page : nat;
  q_limit : nat;
  q_sortBy : string;
  q_sortOrder : string
}.

Definition where_ (q : Query) (id : string) (r : Report) : bool :=
  match q_status q with Some s => bool_decide (r_status r = s) | None => true end
  && match q_severity q with Some n => r_severity r =? n | None => true end
  && match q_isSpam q with
     | Some v => Bool.eqb (r_isSpam r) (String.eqb v "true")
     | None => true
     end
  && match q_isSensitive q with
     | Some v => Bool.eqb (r_isSensitive r) (String.eqb v "true")
     | None => true
     end
  && match q_priority q with
     | Some (String _ _ as v) =>
         if String.eqb v "high" then 10 <=? r_upvotes r
         else if String.eqb v "medium" then (5 <=? r_upvotes r) && (r_upvotes r <? 10)
         else r_upvotes r <? 5
     | _ => true
     end
  && q_rest q id r.

(** [[{ severity: 'desc' }, { upvotes: 'desc' }, { createdAt: 'desc' }]]:
    [x] may come before [y]. *)
Definition by_severity_upvotes_createdAt (x y : string * Report) : Prop :=
  r_severity y.2 < r_severity x.2
  \/ (r_severity x.2 = r_severity y.2
      /\ (r_upvotes y.2 < r_upvotes x.2
          \/ (r_upvotes x.2 = r_upvotes y.2 /\ r_createdAt y.2 <= r_createdAt x.2))).

#[global] Instance by_severity_upvotes_createdAt_dec x y :
  Decision (by_severity_upvotes_createdAt x y).
Proof. unfold by_severity_upvotes_createdAt. apply _. Defined.

(** [{ [sortBy]: sortOrder }] over the sortable columns of the model. *)
Definition column (sortBy : string) : option (Report -> Z) :=
  if String.eqb sortBy "createdAt" then Some r_createdAt
  else if String.eqb sortBy "updatedAt" then Some r_updatedAt
  else if String.eqb sortBy "severity" then Some r_severity
  else if String.eqb sortBy "upvotes" then Some r_upvotes
  else None.

Definition by_column (key : Report -> Z) (descending : bool) (x y : string * Report) : Prop :=
  if descending then key y.2 <= key x.2 else key x.2 <= key y.2.

#[global] Instance by_column_dec key descending x y : Decision (by_column key descending x y).
Proof. unfold by_column. destruct descending; apply _. Defined.

Definition direction (sortOrder : string) : option bool :=
  if String.eqb sortOrder "desc" then Some true
  else if String.eqb sortOrder "asc" then Some false
  else None.

(** The rows of [findMany] in the order of [orderBy], before [skip] and
    [take]; [None] when the store rejects the [orderBy] argument. *)
Definition ordered (q : Query) (rows : list (string * Report)) : option (list (string * Report)) :=
  if String.eqb (q_sortBy q) "priorityScore"
  then Some (merge_sort by_severity_upvotes_createdAt rows)
  else
    key ← column (q_sortBy q);
    descending ← direction (q_sortOrder q);
    Some (merge_sort (by_column key descending) rows).

Record ListedReport := mkListed {
  lr_id : string;
  lr_report : Report;
  lr_priorityScore : Z
}.

Definition with_priority (db : DB) (row : string * Report) : ListedReport :=
  mkListed row.1 row.2 (priorityScore row.2 (subscription_count db row.1)).

Record Listing := mkListing {
  listed : list ListedReport;
  total : nat
}.

Definition getReports_body (q : Query) : Handler Listing :=
  let* rows := read (fun db =>
    filter (fun row => where_ q row.1 row.2 = true) (map_to_list (reports db))) in
  let skip := (Z.of_nat (q_page q) - 1) * Z.of_nat (q_limit q) in
  if skip <? 0 then throw
  else
    let* sorted := require (ordered q rows) in
    let page := take (q_limit q) (drop (Z.to_nat skip) sorted) in
    let* reportsWithPriority := read (fun db => map (with_priority db) page) in
    pure (mkListing reportsWithPriority (length rows)).

Definition getReports (q : Query) (db : DB) : DB * option Listing :=
  match getReports_body q db with
  | (db', Value l) => (db', Some l)
  | (db', _) => (db', None)
  end.

Record Metrics := mkMetrics {
  metrics_priorityScore : Z;
  metrics_daysOpen : Z
}.

Definition getReport_body (env : Env) (id : string) : Handler (Report * Metrics) :=
  let* report := read (fun db => reports db !! id) in
  match report with
  | None => reply (Failure 404 "Report not found")
  | Some r =>
      let* count := read (fun db => subscription_count db id) in
      pure (r, mkMetrics (priorityScore r count)
                 ((now env - r_createdAt r) / (1000 * 60 * 60 * 24)))
  end.

Definition getReport (env : Env) (id : string) (db : DB) : DB * option (Report * Metrics) :=
  match getReport_body env id db with
  | (db', Value v) => (db', Some v)
  | (db', _) => (db', None)
  end.

(** ** Post-states of the handlers *)

(** When the store can take the new Assignment row. *)
Definition can_assign (sch : Schema) (env : Env) (id : string) (db : DB) : Prop :=
  assignments db !! new_id env = None
  /\ (assignment_reportId_unique sch = true -> has_assignment id db = false).

(** The store after a reviewed proof. *)
Definition approveProof_post (env : Env) (id : string) (isApproved : bool)
    (justification : option jsstring) (p : CompletionProof) (a : Assignment)
    (r : Report) (db : DB) : DB :=
  let reviewed := set_proofs (insert id (review_data env isApproved justification p)) db in
  let completed :=
    if isApproved
    then set_reports (insert (a_reportId a) (complete_report_data env r))
           (set_assignments
              (insert (p_assignmentId p) (complete_assignment_data env a)) reviewed)
    else reviewed in
  add_adminLog
    (mkAdminLog (user_id env) (user_role env) "PROOF" id
       (if isApproved then "APPROVED" else "REJECTED") justification (now env))
    (add_history
       (mkHistory (a_reportId a) (user_id env)
          (if isApproved then "PROOF_APPROVED" else "PROOF_REJECTED")
          None None justification (now env))
       completed).

(** The store after a block or unblock. *)
Definition blockContractor_post (env : Env) (id : string) (isBlocked : option bool)
    (justification : option jsstring) (c : Contractor) (db : DB) : DB :=
  let updated := set_contractors (insert id (block_data env isBlocked justification c)) db in
  let cascaded :=
    if truthy_flag isBlocked
    then set_assignments
           (map_imap (fun (_ : string) a =>
              Some (if String.eqb (a_contractorId a) id && in_flight a
                    then cancel_data env a else a))) updated
    else updated in
  add_adminLog
    (mkAdminLog (user_id env) (user_role env) "CONTRACTOR" id
       (if truthy_flag isBlocked then "BLOCKED" else "UNBLOCKED") justification (now env))
    cascaded.

(** ** Invariants and step relations *)

(** The justification a request is tested on, for the handlers that test it. *)
Definition tested_justification (req : Request) : option (option jsstring) :=
  match req with
  | PatchStatus _ _ j | PatchAssign _ _ _ _ j | PostBidAssign _ _ j _
  | PatchBlock _ _ j | PatchProof _ _ j => Some j
  | PostModerate _ _ j _ _ _ _ => Some j
  | PatchModerate _ _ _ _ _ | PatchEscalate _ _ => None
  end.

(** An Assignment is active when it is neither cancelled nor completed. *)
Definition active (a : Assignment) : Prop :=
  a_status a <> AssignmentStatus.CANCELLED /\ a_status a <> AssignmentStatus.COMPLETED.

(** No two active Assignment rows for one report. *)
Definition at_most_one_active (db : DB) : Prop :=
  forall i j a b,
    assignments db !! i = Some a -> assignments db !! j = Some b ->
    a_reportId a = a_reportId b -> active a -> active b -> i = j.

(** A row keeps its report and is never brought back to an active status. *)
Definition row_step (a a' : Assignment) : Prop :=
  a_reportId a' = a_reportId a /\ (active a' -> active a).

(** How one request changes the Assignment table: it rewrites rows in place,
    or it adds one row under a new id, and then, under the to-one relation,
    for a report that had no row. *)
Definition assignments_step (sch : Schema) (m m' : gmap string Assignment) : Prop :=
  (forall i, option_Forall2 row_step (m !! i) (m' !! i))
  \/ (exists nid a,
        m !! nid = None /\ m' = <[nid:=a]> m
        /\ (assignment_reportId_unique sch = true ->
            ~ map_Exists (fun _ x => a_reportId x = a_reportId a) m)).

(** What one request may do to the two stamps of a report. *)
Definition stamps_step (env : Env) (req : Request) (id : string) (r r' : Report) : Prop :=
  (r_closedAt r' = r_closedAt r
   \/ (r_closedAt r' = Some (now env) /\ exists j, req = PatchStatus id "CLOSED" j))
  /\ (r_completedAt r' = r_completedAt r
      \/ (r_completedAt r' = Some (now env) /\ exists pid j, req = PatchProof pid true j)).


(** ** Sample stores *)

(** A caller, a clock reading and the next generated id. *)
Definition sample_env : Env := mkEnv "admin-1" "ADMIN" 1000 "asg-1".

Definition second_env : Env := mkEnv "admin-2" "ADMIN" 5000 "asg-2".

Definition later_env : Env := mkEnv "admin-1" "ADMIN" 9000 "asg-3".

(** An open report of severity 3. *)
Definition sample_report : Report :=
  mkReport ReportStatus.OPEN 3 0 false false false None None 10 10 None None 0.

(** Sixteen characters: passes the length check. *)
Definition sample_justification : option jsstring :=
  Some (js "verified on site").

Definition sample_contractor : Contractor := mkContractor "Acme Roads" false None None None 0.

Definition sample_db : DB :=
  mkDB {[ "r1" := sample_report ]} ∅ ∅ ∅ ∅ [] [] [] [].

Definition two_reports_db : DB :=
  mkDB {[ "r1" := sample_report; "r2" := sample_report ]} ∅ ∅ ∅ ∅ [] [] [] [].

(** Two reports; two bids on the first, one on the second. *)
Definition bidding_db : DB :=
  mkDB {[ "r1" := sample_report; "r2" := sample_report ]}
       {[ "b1" := mkBid "r1" "c1" 500 3 BidStatus.PENDING None None None;
          "b2" := mkBid "r1" "c2" 400 5 BidStatus.PENDING None None None;
          "b3" := mkBid "r2" "c1" 900 2 BidStatus.PENDING None None None ]}
       ∅
       {[ "c1" := sample_contractor; "c2" := sample_contractor ]}
       ∅ [] [] [] [].

(** ... after report [r1] was assigned to contractor [c1]: it has the
    active Assignment [asg-1]. *)
Definition assigned_db : DB :=
  (assignReport (mkSchema true) sample_env "r1" (Some "c1") None None
     sample_justification bidding_db).1.

(** ... with a pending completion proof for that Assignment. *)
Definition proof_db : DB :=
  set_proofs (insert "p1" (mkProof "asg-1" ProofStatus.PENDING None None None)) assigned_db.

(** ... after that proof was approved. *)
Definition approved_db : DB :=
  (approveProof second_env "p1" true sample_justification proof_db).1.

(** A severity-5 report nobody follows and a severity-4 report with 20
    upvotes and 10 subscribers. *)
Definition engagement_db : DB :=
  mkDB {[ "urgent" := mkReport ReportStatus.OPEN 5 0 false false false None None 10 10 None None 0;
          "popular" := mkReport ReportStatus.OPEN 4 20 false false false None None 20 20 None None 0 ]}
       ∅ ∅ ∅ ∅
       (map (mkSubscription "popular")
          ["u1"; "u2"; "u3"; "u4"; "u5"; "u6"; "u7"; "u8"; "u9"; "u10"])
       [] [] [].

(** One report of severity 4 with 3 upvotes and 2 subscribers. *)
Definition scenario_db : DB :=
  mkDB {[ "r1" := mkReport ReportStatus.OPEN 4 3 false false false None None 10 10 None None 0 ]}
       ∅ ∅ ∅ ∅
       [ mkSubscription "r1" "u1"; mkSubscription "r1" "u2" ]
       [] [] [].

Definition priority_query : Query :=
  mkQuery None None None None None (fun _ _ => true) 1 20 "priorityScore" "desc".


(** * The rest of the admin surface *)

(** ** utils/auth.js: the fixed accounts and the authentication middleware *)

Record FakeUser := mkFakeUser {
  fu_id : string;
  fu_password : string;
  fu_role : string;
  fu_username : string;
  fu_token : string;
  fu_email : string
}.

Definition FAKE_USERS : list FakeUser :=
  [ mkFakeUser "admin" "admin123" "ADMIN" "Admin User"
      "fake-jwt-token-admin" "admin@janmarg.gov.in";
    mkFakeUser "superAdmin" "superAdmin1" "SUPERADMIN" "Super Admin"
      "fake-jwt-token-superadmin" "superadmin@janmarg.gov.in";
    mkFakeUser "moderator" "mod123" "MODERATOR" "Moderator User"
      "fake-jwt-token-moderator" "moderator@janmarg.gov.in";
    mkFakeUser "citizen1" "citizen123" "CITIZEN" "Citizen User"
      "fake-jwt-token-citizen" "citizen@example.com" ].

(** [const { password, ...userWithoutPassword } = user] *)
Record AuthUser := mkAuthUser {
  au_id : string;
  au_role : string;
  au_username : string;
  au_token : string;
  au_email : string
}.

Definition userWithoutPassword (u : FakeUser) : AuthUser :=
  mkAuthUser (fu_id u) (fu_role u) (fu_username u) (fu_token u) (fu_email u).

Definition getUserFromToken (token : option string) : option AuthUser :=
  match token with
  | Some (String _ _ as t) =>
      userWithoutPassword <$> List.find (fun u => String.eqb (fu_token u) t) FAKE_USERS
  | _ => None
  end.

(** [u.id === id && u.password === password]; an absent body field is
    [None] and equals no string. *)
Definition validateCredentials (id password : option string) : option AuthUser :=
  userWithoutPassword <$>
    List.find (fun u => bool_decide (Some (fu_id u) = id)
                        && bool_decide (Some (fu_password u) = password))
      FAKE_USERS.

Definition hasRequiredRole (userRole : string) (requiredRoles : list string) : bool :=
  match requiredRoles with
  | [] => true
  | _ => existsb (String.eqb userRole) requiredRoles
  end.

Definition getTestUsers : list AuthUser := map userWithoutPassword FAKE_USERS.

(** What the middleware reads of a request: the [token] cookie and the
    [Authorization] header. *)
Record Credentials := mkCredentials {
  cookie_token : option string;
  authorization : option string
}.

(** [req.cookies?.token], and when that is falsy the rest of an
    [Authorization] header that starts with ['Bearer ']. *)
Definition request_token (c : Credentials) : option string :=
  if truthy_id (cookie_token c) then cookie_token c
  else
    match authorization c with
    | Some authHeader =>
        if String.prefix "Bearer " authHeader
        then Some (String.substring 7 (String.length authHeader - 7) authHeader)
        else cookie_token c
    | None => cookie_token c
    end.

(** [authenticate(requiredRoles)]: the answer of the middleware, or the
    user it attaches to the request before calling [next()]. *)
Definition authenticate (requiredRoles : list string) (c : Credentials)
  : Response + AuthUser :=
  let token := request_token c in
  if negb (truthy_id token)
  then inl (Failure 401 "No authentication token provided. Please login first.")
  else
    match getUserFromToken token with
    | None => inl (Failure 401 "Invalid or expired token")
    | Some user =>
        if negb (hasRequiredRole (au_role user) requiredRoles)
        then inl (Failure 403
               ("Access denied. Required roles: " ++ String.concat ", " requiredRoles
                ++ ". Your role: " ++ au_role user))
        else inr user
    end.

(** ** routes/admin-auth.js: POST /api/auth/login *)

Definition login (id password : option string) : Response + AuthUser :=
  if negb (truthy_id id) || negb (truthy_id password)
  then inl (Failure 400 "Both id and password are required")
  else
    match validateCredentials id password with
    | None => inl (Failure 401 "Invalid credentials")
    | Some user => inr user
    end.

(** ** The router of routes/admin.js: each route behind its middleware *)

Definition required_roles (req : Request) : list string :=
  match req with
  | PatchBlock _ _ _ => ["ADMIN"; "SUPERADMIN"]
  | _ => ["ADMIN"; "MODERATOR"]
  end.

(** One request through the router: [clock] is the time of the call and
    [fresh] the id the store would give to a created row. *)
Definition route (sch : Schema) (clock : Z) (fresh : string) (c : Credentials)
    (req : Request) (db : DB) : DB * Response :=
  match authenticate (required_roles req) c with
  | inl refusal => (db, refusal)
  | inr user => handle sch (mkEnv (au_id user) (au_role user) clock fresh) req db
  end.

(** ** routes/zone.js: the urgency score of the ward listing

    [ageInDays] is a quotient of two integers compared with 1, 3 and 7; the
    comparison is the one of the age in milliseconds with as many days. *)
Definition calculateUrgencyScore (clock : Z) (report : Report) : Z :=
  let day := 1000 * 60 * 60 * 24 in
  let age := clock - r_createdAt report in
  let score := 0 + r_severity report in
  let score := if age <? 1 * day then score + 5
               else if age <? 3 * day then score + 3
               else if age <? 7 * day then score + 1
               else score in
  let score := if decide (r_status report = ReportStatus.OPEN) then score + 3
               else if decide (r_status report = ReportStatus.VALIDATED) then score + 2
               else score in
  let score := score + Z.min (r_upvotes report) 5 in
  Z.min score 100.


(** ** GET /api/admin/dashboard/stats

    [scope] stands for the [wardId] filter (a column the model of a report
    leaves out) and accepts every report when the query has no [wardId].
    The completion rate, a decimal string, and the issue-type ranking are
    left out. *)

Record DashboardStats := mkDashboardStats {
  totalReports : nat;
  openReports : nat;
  inProgressReports : nat;
  completedReports : nat;
  recentReports : list (string * Report)
}.

Definition count_reports (p : string -> Report -> bool) (db : DB) : nat :=
  length (filter (fun row => p row.1 row.2 = true) (map_to_list (reports db))).

Definition getDashboardStats (scope : string -> Report -> bool) (db : DB) : DashboardStats :=
  let with_status s := fun id r => scope id r && bool_decide (r_status r = s) in
  mkDashboardStats
    (count_reports scope db)
    (count_reports (with_status ReportStatus.OPEN) db)
    (count_reports (with_status ReportStatus.IN_PROGRESS) db)
    (count_reports (with_status ReportStatus.COMPLETED) db)
    (take 5 (merge_sort (by_column r_createdAt true)
               (filter (fun row => scope row.1 row.2 = true) (map_to_list (reports db))))).

(** ** GET /api/admin/reports/:id/bids

    The statistics over the bids of a report; the average, a quotient of
    floating-point numbers, and the count of preferred bids (a column the
    model of a bid leaves out) are left out. The bids come in the order of
    the store: the [orderBy] of the source starts with that same column, and
    the statistics do not depend on the order. *)

Record BidStatistics := mkBidStatistics {
  bs_total : nat;
  bs_lowestCost : Z;
  bs_highestCost : Z
}.

(** [bids.length > 0 ? Math.min(...costs) : 0] *)
Definition lowest (costs : list Z) : Z :=
  match costs with
  | [] => 0
  | c :: rest => foldl Z.min c rest
  end.

Definition highest (costs : list Z) : Z :=
  match costs with
  | [] => 0
  | c :: rest => foldl Z.max c rest
  end.

Definition report_bids (id : string) (db : DB) : list (string * Bid) :=
  filter (fun row => b_reportId row.2 = id) (map_to_list (bids db)).

Definition getBids_body (id : string) : Handler (list (string * Bid) * BidStatistics) :=
  let* report := read (fun db => reports db !! id) in
  match report with
  | None => reply (Failure 404 "Report not found")
  | Some _ =>
      let* found := read (report_bids id) in
      let costs := map (fun row => b_proposedCost row.2) found in
      pure (found, mkBidStatistics (length found) (lowest costs) (highest costs))
  end.

Definition getBids (id : string) (db : DB)
  : DB * (Response + list (string * Bid) * BidStatistics) :=
  match getBids_body id db with
  | (db', Value v) => (db', inr v)
  | (db', Reply r) => (db', inl r)
  | (db', Thrown) => (db', inl (Failure 500 "Failed to fetch bids"))
  end.

(** ** GET /api/admin/analytics/dashboard: the window and the counts over it *)

Definition analytics_startDate (timeframe : string) (clock : Z) : Z :=
  if String.eqb timeframe "7d" then clock - 7 * 24 * 60 * 60 * 1000
  else if String.eqb timeframe "30d" then clock - 30 * 24 * 60 * 60 * 1000
  else if String.eqb timeframe "90d" then clock - 90 * 24 * 60 * 60 * 1000
  else clock - 30 * 24 * 60 * 60 * 1000.

Definition all_statuses : list ReportStatus.t :=
  [ ReportStatus.OPEN; ReportStatus.DUPLICATE; ReportStatus.MERGED;
    ReportStatus.VALIDATED; ReportStatus.IN_BIDDING; ReportStatus.ASSIGNED;
    ReportStatus.IN_PROGRESS; ReportStatus.PENDING_CITIZEN_REVIEW;
    ReportStatus.COMPLETED; ReportStatus.VERIFIED; ReportStatus.CLOSED;
    ReportStatus.REJECTED; ReportStatus.AUTO_CLOSED ].

Record Analytics := mkAnalytics {
  an_totalReports : nat;
  an_reportsByStatus : list (ReportStatus.t * nat);
  an_adminActions : nat
}.

(** [groupBy({ by: ['status'], _count: true, where })]: one group for each
    status that some report of the window has. *)
Definition getAnalytics (timeframe : string) (clock : Z) (db : DB) : Analytics :=
  let startDate := analytics_startDate timeframe clock in
  let recent := fun (_ : string) r => startDate <=? r_createdAt r in
  mkAnalytics
    (count_reports recent db)
    (filter (fun g => g.2 <> 0%nat)
       (map (fun s => (s, count_reports
                            (fun id r => recent id r && bool_decide (r_status r = s)) db))
          all_statuses))
    (length (filter (fun e => startDate <= l_createdAt e) (adminLog db))).


(** ** routes/run.js: the input validators

    A regular expression between [^] and [$], without flags, is tested on
    the whole string. Expressions are matched by derivatives over code
    units. *)

Module Regex.
Inductive t :=
| Never
| Empty
| Class (p : N -> bool)
| Seq (r s : t)
| Alt (r s : t)
| Star (r : t).

(** [r+] *)
Definition Plus (r : t) : t := Seq r (Star r).

(** [r{n}] *)
Fixpoint Times (n : nat) (r : t) : t :=
  match n with
  | O => Empty
  | S n' => Seq r (Times n' r)
  end.

Fixpoint nullable (r : t) : bool :=
  match r with
  | Never => false
  | Empty => true
  | Class _ => false
  | Seq r s => nullable r && nullable s
  | Alt r s => nullable r || nullable s
  | Star _ => true
  end.

Fixpoint derive (c : N) (r : t) : t :=
  match r with
  | Never => Never
  | Empty => Never
  | Class p => if p c then Empty else Never
  | Seq r s =>
      if nullable r
      then Alt (Seq (derive c r) s) (derive c s)
      else Seq (derive c r) s
  | Alt r s => Alt (derive c r) (derive c s)
  | Star r => Seq (derive c r) (Star r)
  end.

(** [/^r$/.test(s)] *)
Fixpoint test (r : t) (s : jsstring) : bool :=
  match s with
  | [] => nullable r
  | c :: rest => test (derive c r) rest
  end.

(** The strings an expression denotes. *)
Inductive matches : t -> jsstring -> Prop :=
| matches_empty : matches Empty []
| matches_class p c : p c = true -> matches (Class p) [c]
| matches_seq r s u v : matches r u -> matches s v -> matches (Seq r s) (u ++ v)%list
| matches_alt_l r s u : matches r u -> matches (Alt r s) u
| matches_alt_r r s u : matches s u -> matches (Alt r s) u
| matches_star_nil r : matches (Star r) []
| matches_star_cons r u v :
    matches r u -> matches (Star r) v -> matches (Star r) (u ++ v)%list.
End Regex.

(** [\d] and the code units [-], [.], [@] *)
Definition is_digit (c : N) : bool := ((48 <=? c) && (c <=? 57))%N.
Definition is_lower (c : N) : bool := ((97 <=? c) && (c <=? 122))%N.
Definition hyphen : N := 45%N.
Definition full_stop : N := 46%N.
Definition commercial_at : N := 64%N.

(** [[^\s@]] *)
Definition is_address_unit (c : N) : bool :=
  negb (is_js_whitespace c) && negb (c =? commercial_at)%N.

(** [/^[^\s@]+@[^\s@]+\.[^\s@]+$/] *)
Definition emailRegex : Regex.t :=
  Regex.Seq (Regex.Plus (Regex.Class is_address_unit))
    (Regex.Seq (Regex.Class (N.eqb commercial_at))
       (Regex.Seq (Regex.Plus (Regex.Class is_address_unit))
          (Regex.Seq (Regex.Class (N.eqb full_stop))
             (Regex.Plus (Regex.Class is_address_unit))))).

Definition validateEmail (email : jsstring) : bool := Regex.test emailRegex email.

(** [/^[6-9]\d{9}$/] *)
Definition phoneRegex : Regex.t :=
  Regex.Seq (Regex.Class (fun c => (54 <=? c) && (c <=? 57))%N)
    (Regex.Times 9 (Regex.Class is_digit)).

Definition validatePhone (phone : jsstring) : bool := Regex.test phoneRegex phone.

(** [s.replace(/p+/g, by)] for a class [p]: every maximal run of units of
    the class becomes one [by]. *)
Fixpoint replace_runs (p : N -> bool) (by_ : N) (in_run : bool) (s : jsstring) : jsstring :=
  match s with
  | [] => []
  | c :: rest =>
      if p c
      then (if in_run then replace_runs p by_ true rest
            else by_ :: replace_runs p by_ true rest)
      else c :: replace_runs p by_ false rest
  end.

(** [generateSlug(name, suffix = '')]. [String.prototype.toLowerCase] is a
    parameter: its table over all of Unicode is not reproduced. *)
Definition generateSlug (toLowerCase : jsstring -> jsstring)
    (name suffix : jsstring) : jsstring :=
  let kept := filter (fun c => (is_lower c || is_digit c || is_js_whitespace c
                                || (c =? hyphen)%N) = true)
                (toLowerCase name) in
  let spaced := replace_runs is_js_whitespace hyphen false kept in
  let baseSlug := trim (replace_runs (N.eqb hyphen) hyphen false spaced) in
  match suffix with
  | [] => baseSlug
  | _ => (baseSlug ++ [hyphen] ++ suffix)%list
  end.

(** ASCII lower-casing, to run [generateSlug] on ASCII names. *)
Definition ascii_toLowerCase (s : jsstring) : jsstring :=
  map (fun c => if ((65 <=? c) && (c <=? 90))%N then (c + 32)%N else c) s.


(** ** What a request leaves in the three logs *)

(** The text a request gives as its reason. *)
Definition request_text (req : Request) : option jsstring :=
  match req with
  | PatchStatus _ _ j | PatchAssign _ _ _ _ j | PostModerate _ _ j _ _ _ _
  | PostBidAssign _ _ j _ | PatchBlock _ _ j | PatchProof _ _ j => j
  | PatchModerate _ _ reason _ _ | PatchEscalate _ reason => reason
  end.

(** The entries one request appended: to the report history, to the admin
    log and to the moderator actions. *)
Record Appended := mkAppended {
  new_history : list ReportHistory;
  new_adminLog : list AdminLog;
  new_moderatorAction : list ModeratorAction
}.

Definition appended_by (db db' : DB) (a : Appended) : Prop :=
  reportHistory db' = (reportHistory db ++ new_history a)%list
  /\ adminLog db' = (adminLog db ++ new_adminLog a)%list
  /\ moderatorAction db' = (moderatorAction db ++ new_moderatorAction a)%list.

(** Entries are signed by the caller and carry the text of the request. *)
Definition signed_by (env : Env) (req : Request) (a : Appended) : Prop :=
  Forall (fun h => h_actorId h = user_id env
                   /\ h_justification h = request_text req
                   /\ h_createdAt h = now env) (new_history a)
  /\ Forall (fun l => l_adminId l = user_id env /\ l_adminRole l = user_role env
                      /\ l_justificationMessage l = request_text req
                      /\ l_createdAt l = now env) (new_adminLog a)
  /\ Forall (fun m => m_moderatorId m = user_id env
                      /\ m_justification m = request_text req
                      /\ m_createdAt m = now env) (new_moderatorAction a).

(** How many entries a request that went through leaves in each log. *)
Definition log_shape (req : Request) : nat * nat * nat :=
  match req with
  | PatchStatus _ _ _ | PatchAssign _ _ _ _ _ | PostBidAssign _ _ _ _
  | PatchProof _ _ _ => (1, 1, 0)
  | PostModerate _ _ _ _ _ _ _ => (1, 1, 1)
  | PatchModerate _ _ _ _ _ => (1, 0, 1)
  | PatchEscalate _ _ => (1, 0, 0)
  | PatchBlock _ _ _ => (0, 1, 0)
  end%nat.

Definition appended_shape (a : Appended) : nat * nat * nat :=
  (length (new_history a), length (new_adminLog a), length (new_moderatorAction a)).

Definition is_success (r : Response) : bool :=
  match r with Success _ => true | Failure _ _ => false end.


(** The names of [validStatuses]. *)
Definition status_name (s : ReportStatus.t) : string :=
  match s with
  | ReportStatus.OPEN => "OPEN"
  | ReportStatus.DUPLICATE => "DUPLICATE"
  | ReportStatus.MERGED => "MERGED"
  | ReportStatus.VALIDATED => "VALIDATED"
  | ReportStatus.IN_BIDDING => "IN_BIDDING"
  | ReportStatus.ASSIGNED => "ASSIGNED"
  | ReportStatus.IN_PROGRESS => "IN_PROGRESS"
  | ReportStatus.PENDING_CITIZEN_REVIEW => "PENDING_CITIZEN_REVIEW"
  | ReportStatus.COMPLETED => "COMPLETED"
  | ReportStatus.VERIFIED => "VERIFIED"
  | ReportStatus.CLOSED => "CLOSED"
  | ReportStatus.REJECTED => "REJECTED"
  | ReportStatus.AUTO_CLOSED => "AUTO_CLOSED"
  end.

(** A sequence of escalations of one report, each with its caller, its
    time and its reason. *)
Definition escalations (id : string) (calls : list (Env * option jsstring))
  : list (Env * Request) :=
  map (fun call => (call.1, PatchEscalate id call.2)) calls.

(** The Assignment row of a direct assignment. *)
Definition direct_assignment (env : Env) (id contractorId : string) (deadline : option Z)
  : Assignment :=
  mkAssignment id contractorId (user_id env) None None deadline
    AssignmentStatus.ASSIGNED None None None.


(** [[a-z0-9-]] *)
Definition is_slug_unit (c : N) : bool :=
  is_lower c || is_digit c || (c =? hyphen)%N.

(** No two neighbours of the class [p]. *)
Fixpoint no_adjacent (p : N -> bool) (s : jsstring) : Prop :=
  match s with
  | c1 :: rest =>
      match rest with
      | c2 :: _ => p c1 && p c2 = false
      | [] => True
      end /\ no_adjacent p rest
  | [] => True
  end.

(** * Properties *)

(** Runs a handler body symbolically. *)
Ltac run_handler :=
  cbv beta iota delta [run bind read write reply throw require pure when_
    update_row updateMany_rows assignment_create has_assignment] in *;
  simpl in *.

(** ** The justification check *)

Lemma trimStart_length s : (length (trimStart s) <= length s)%nat.
Proof.
  induction s as [|c s IH]; simpl; [lia|].
  destruct (is_js_whitespace c); simpl; lia.
Qed.

Lemma trim_length s : (length (trim s) <= length s)%nat.
Proof.
  unfold trim, trimEnd. rewrite length_rev.
  etransitivity; [apply trimStart_length|].
  rewrite length_rev. apply trimStart_length.
Qed.

Lemma justification_accepted_iff j :
  justification_rejected j = false <->
  exists s, j = Some s /\ 10 <= js_length (trim s).
Proof.
  unfold justification_rejected, js_length.
  destruct j as [s|]; [|split; [done|by intros (? & ? & _)]]. split.
  - intros H. exists s. split; [done|].
    apply orb_false_elim in H as [_ H]. lia.
  - intros (s' & [= <-] & H). pose proof (trim_length s).
    destruct s; simpl in *; lia.
Qed.

Lemma justification_rejected_iff j :
  justification_rejected j = true <->
  j = None \/ exists s, j = Some s /\ js_length (trim s) < 10.
Proof.
  destruct (justification_rejected j) eqn:E.
  - split; [|done]. intros _. destruct j as [s|]; [right|by left].
    exists s. split; [done|].
    destruct (Z_lt_ge_dec (js_length (trim s)) 10) as [|Hge]; [done|].
    assert (justification_rejected (Some s) = false) as E'; [|congruence].
    apply justification_accepted_iff. exists s. split; [done|lia].
  - apply justification_accepted_iff in E as (s & -> & Hs).
    split; [done|]. intros [|(s' & [= <-] & ?)]; [done|lia].
Qed.

(** Nine characters between blanks are refused, ten are taken. *)
Example nine_characters_rejected :
  justification_rejected (Some (js "  123456789 ")) = true.
Proof. reflexivity. Qed.

Example ten_characters_accepted :
  justification_rejected (Some (js "  1234567890 ")) = false.
Proof. reflexivity. Qed.

(** A request that is tested with a short or missing justification is
    answered 400 and the store is left as it was. *)
Lemma short_justification_rejected sch env req j db :
  tested_justification req = Some j ->
  justification_rejected j = true ->
  exists msg, handle sch env req db = (db, Failure 400 msg).
Proof.
  intros Hg Hj. destruct req; simpl in Hg; simplify_eq; simpl.
  - unfold updateStatus, updateStatus_body. rewrite Hj. by eexists.
  - unfold assignReport, assignReport_body. rewrite Hj. by eexists.
  - unfold moderateReport, moderateReport_body.
    destruct (ModAction.parse action); [rewrite Hj|]; by eexists.
  - unfold assignBid, assignBid_body. rewrite Hj. by eexists.
  - unfold blockContractor, blockContractor_body. rewrite Hj. by eexists.
  - unfold approveProof, approveProof_body. rewrite Hj. by eexists.
Qed.

(** ** What each handler does when it goes through *)

Lemma escalateReport_spec env id reason db r :
  reports db !! id = Some r ->
  escalateReport env id reason db =
    (add_history (mkHistory id (user_id env) "ESCALATED" None None reason (now env))
       (set_reports (insert id (escalate_data env r)) db),
     Success "Report escalated successfully").
Proof.
  intros H. unfold escalateReport, escalateReport_body. run_handler.
  rewrite H. simpl. by rewrite H.
Qed.

Lemma flagReport_spec env id action act reason isSpam isSensitive db r :
  ModAction.parse action = Some act ->
  ModAction.is_flag_action act = true ->
  reports db !! id = Some r ->
  flagReport env id action reason isSpam isSensitive db =
    (add_history (mkHistory id (user_id env) "MODERATED" None None reason (now env))
       (add_moderatorAction (mkModeratorAction (user_id env) id act reason (now env))
          (set_reports (insert id (flag_data env isSpam isSensitive r)) db)),
     Success "Report moderated successfully").
Proof.
  intros Ha Hf H. unfold flagReport, flagReport_body. rewrite Ha, Hf.
  run_handler. rewrite H. simpl. by rewrite H.
Qed.

Lemma moderateReport_spec env id action act j isSpam isSensitive dup sev db r :
  ModAction.parse action = Some act ->
  justification_rejected j = false ->
  reports db !! id = Some r ->
  moderateReport env id action j isSpam isSensitive dup sev db =
    (add_adminLog
       (mkAdminLog (user_id env) (user_role env) "REPORT" id "APPROVED" j (now env))
       (add_history (mkHistory id (user_id env) "MODERATED" None None j (now env))
          (add_moderatorAction (mkModeratorAction (user_id env) id act j (now env))
             (set_reports
                (insert id (moderate_data env act isSpam isSensitive dup sev r)) db))),
     Success "Report moderated successfully").
Proof.
  intros Ha Hj H. unfold moderateReport, moderateReport_body. rewrite Ha, Hj.
  run_handler. rewrite H. simpl. by rewrite H.
Qed.

Lemma updateStatus_spec env id status target j db r :
  justification_rejected j = false ->
  ReportStatus.parse status = Some target ->
  reports db !! id = Some r ->
  updateStatus env id status j db =
    (add_adminLog
       (mkAdminLog (user_id env) (user_role env) "REPORT" id "STATUS_CHANGED" j (now env))
       (add_history
          (mkHistory id (user_id env) "STATUS_CHANGED" (Some (r_status r)) (Some target)
             j (now env))
          (set_reports (insert id (status_data env target r)) db)),
     Success "Report status updated successfully").
Proof.
  intros Hj Hs H. unfold updateStatus, updateStatus_body. rewrite Hj, Hs.
  run_handler. rewrite H. simpl. by rewrite H.
Qed.

(** Escalation adds one and stops at five. *)
Lemma escalate_severity env r :
  r_severity (escalate_data env r) = Z.min (r_severity r + 1) 5
  /\ (1 <= r_severity r <= 5 -> 1 <= r_severity (escalate_data env r) <= 5)
  /\ (r_severity r < 5 -> r_severity (escalate_data env r) = r_severity r + 1)
  /\ (5 <= r_severity r -> r_severity (escalate_data env r) = 5).
Proof. simpl. lia. Qed.

(** C1. The escalate route and the PATCH moderate route take a [reason]
    that is never tested: with no reason at all both answer 200 and change
    the report, where the six routes that test it answer 400. *)
Theorem untested_routes_accept_missing_reason env id db r :
  reports db !! id = Some r ->
  (exists db',
     escalateReport env id None db = (db', Success "Report escalated successfully")
     /\ reports db' !! id = Some (escalate_data env r))
  /\ (exists db',
        flagReport env id "FLAG_SPAM" None (Some true) None db
          = (db', Success "Report moderated successfully")
        /\ reports db' !! id = Some (flag_data env (Some true) None r)).
Proof.
  intros H. split.
  - eexists. split; [by apply escalateReport_spec|].
    simpl. apply lookup_insert_eq.
  - eexists. split; [by eapply flagReport_spec|].
    simpl. apply lookup_insert_eq.
Qed.

Lemma untested_routes_accept_missing_reason_witness :
  (exists db',
     escalateReport sample_env "r1" None sample_db
       = (db', Success "Report escalated successfully")
     /\ reports db' !! "r1" = Some (escalate_data sample_env sample_report))
  /\ (exists db',
        flagReport sample_env "r1" "FLAG_SPAM" None (Some true) None sample_db
          = (db', Success "Report moderated successfully")
        /\ reports db' !! "r1" = Some (flag_data sample_env (Some true) None sample_report)).
Proof.
  apply (untested_routes_accept_missing_reason sample_env "r1" sample_db sample_report).
  reflexivity.
Defined.

(** C4. The moderate route writes the severity it is given: nothing keeps
    it between 1 and 5. *)
Theorem moderate_writes_any_severity env id action act j isSpam isSensitive dup n db r :
  ModAction.parse action = Some act ->
  justification_rejected j = false ->
  reports db !! id = Some r ->
  exists db' r',
    moderateReport env id action j isSpam isSensitive dup (Some n) db
      = (db', Success "Report moderated successfully")
    /\ reports db' !! id = Some r'
    /\ r_severity r' = n.
Proof.
  intros Ha Hj H. eexists _, _. split; [by eapply moderateReport_spec|].
  simpl. split; [apply lookup_insert_eq|done].
Qed.

Lemma moderate_writes_any_severity_witness :
  exists db' r',
    moderateReport sample_env "r1" "ESCALATE" sample_justification None None None
      (Some 9) sample_db = (db', Success "Report moderated successfully")
    /\ reports db' !! "r1" = Some r'
    /\ r_severity r' = 9.
Proof.
  apply (moderate_writes_any_severity sample_env "r1" "ESCALATE" ModAction.ESCALATE
           sample_justification None None None 9 sample_db sample_report);
    reflexivity.
Defined.

(** ** Bid acceptance *)

(** The query for the bid is refused by the client. *)
Lemma findUnique_bid_refused bidId db :
  findUnique bids bidId bid_include db = (db, Thrown).
Proof. reflexivity. Qed.

(** Every call leaves through the justification check or through the
    [catch]: the store is as before. *)
Lemma assignBid_refused sch env id bidId j deadline db :
  assignBid sch env id bidId j deadline db =
    (db, if justification_rejected j
         then Failure 400 "Justification is required for bid assignment (min 10 characters)"
         else Failure 500 "Failed to assign bid").
Proof.
  unfold assignBid, assignBid_body, run.
  destruct (justification_rejected j); [reflexivity|].
  unfold bind. by rewrite findUnique_bid_refused.
Qed.

(** C2. No bid acceptance completes: a call whose justification passes is
    answered 500 and has written nothing, so the chosen bid is not ACCEPTED,
    no sibling is REJECTED, no Assignment is created and the report keeps
    its status; no call at all answers 200. *)
Theorem assignBid_never_accepts sch env id bidId j deadline db :
  justification_rejected j = false ->
  assignBid sch env id bidId j deadline db = (db, Failure 500 "Failed to assign bid")
  /\ (forall j' deadline' message,
        (assignBid sch env id bidId j' deadline' db).2 <> Success message).
Proof.
  intros Hj. split.
  - by rewrite assignBid_refused, Hj.
  - intros j' deadline' message. rewrite assignBid_refused. simpl.
    by destruct (justification_rejected j').
Qed.

(** ** One active Assignment per report *)

Lemma row_step_refl a : row_step a a.
Proof. by split. Qed.

Lemma assignments_step_refl sch m : assignments_step sch m m.
Proof.
  left. intros i. destruct (m !! i); constructor. apply row_step_refl.
Qed.

Lemma assignments_step_insert sch m id a a' :
  m !! id = Some a -> row_step a a' -> assignments_step sch m (<[id:=a']> m).
Proof.
  intros Hid Hstep. left. intros i. rewrite lookup_insert.
  case_decide; simplify_eq.
  - rewrite Hid. by constructor.
  - destruct (m !! i); constructor. apply row_step_refl.
Qed.

Lemma assignments_step_create sch id a db db' o :
  assignment_create sch id a db = (db', o) ->
  assignments_step sch (assignments db) (assignments db').
Proof.
  run_handler.
  destruct (bool_decide (is_Some (assignments db !! id))) eqn:Hnew; simpl.
  { intros [= <- <-]. apply assignments_step_refl. }
  apply bool_decide_eq_false in Hnew. rewrite <-eq_None_not_Some in Hnew.
  destruct (assignment_reportId_unique sch) eqn:Hu; simpl.
  - destruct (bool_decide _) eqn:Hdup; intros [= <- <-].
    + apply assignments_step_refl.
    + right. exists id, a. split_and!; [done..|].
      intros _. exact (bool_decide_eq_false_1 _ Hdup).
  - intros [= <- <-]. right. exists id, a. split_and!; [done..|congruence].
Qed.

Ltac same_table :=
  run_handler; repeat (case_match; simpl in *; simplify_eq); try done.

Lemma updateStatus_assignments env id status j db :
  assignments (updateStatus env id status j db).1 = assignments db.
Proof. unfold updateStatus, updateStatus_body. same_table. Qed.

Lemma moderateReport_assignments env id action j sp se dup sev db :
  assignments (moderateReport env id action j sp se dup sev db).1 = assignments db.
Proof. unfold moderateReport, moderateReport_body. same_table. Qed.

Lemma flagReport_assignments env id action reason sp se db :
  assignments (flagReport env id action reason sp se db).1 = assignments db.
Proof. unfold flagReport, flagReport_body. same_table. Qed.

Lemma escalateReport_assignments env id reason db :
  assignments (escalateReport env id reason db).1 = assignments db.
Proof. unfold escalateReport, escalateReport_body. same_table. Qed.

Lemma create_guard sch m nid rid :
  bool_decide (is_Some (m !! nid))
  || assignment_reportId_unique sch
     && bool_decide (map_Exists (fun (_ : string) (x : Assignment) => a_reportId x = rid) m)
  = false ->
  m !! nid = None
  /\ (assignment_reportId_unique sch = true ->
      ~ map_Exists (fun (_ : string) (x : Assignment) => a_reportId x = rid) m).
Proof.
  intros H. apply orb_false_elim in H as [Hnew Hu].
  apply bool_decide_eq_false in Hnew. rewrite <-eq_None_not_Some in Hnew.
  split; [done|]. intros Hs. rewrite Hs in Hu. simpl in Hu.
  exact (bool_decide_eq_false_1 _ Hu).
Qed.

Ltac created_row :=
  right; eexists _, _;
  match goal with
  | H : _ || _ = false |- _ => apply create_guard in H as [? ?]
  end;
  split_and!; [eassumption | reflexivity | assumption].

Lemma assignReport_assignments sch env id c d dl j db :
  assignments_step sch (assignments db)
    (assignments (assignReport sch env id c d dl j db).1).
Proof.
  unfold assignReport, assignReport_body. run_handler.
  repeat (case_match; simpl in *; simplify_eq);
    first [apply assignments_step_refl | created_row].
Qed.

Lemma assignBid_assignments sch env id bidId j dl db :
  assignments_step sch (assignments db)
    (assignments (assignBid sch env id bidId j dl db).1).
Proof.
  unfold assignBid, assignBid_body. run_handler.
  repeat (case_match; simpl in *; simplify_eq);
    first [apply assignments_step_refl | created_row].
Qed.

Lemma not_active_cancelled env a : ~ active (cancel_data env a).
Proof. intros [H _]. by apply H. Qed.

Lemma not_active_completed env a : ~ active (complete_assignment_data env a).
Proof. intros [_ H]. by apply H. Qed.

Lemma assignments_step_cancel sch env id m :
  assignments_step sch m
    (map_imap (fun (_ : string) a =>
       Some (if String.eqb (a_contractorId a) id && in_flight a
             then cancel_data env a else a)) m).
Proof.
  left. intros i. rewrite map_lookup_imap.
  destruct (m !! i) as [a|]; simpl; constructor.
  case_match; [|apply row_step_refl].
  split; [done|]. intros Hact. by apply not_active_cancelled in Hact.
Qed.

Lemma blockContractor_assignments sch env id b j db :
  assignments_step sch (assignments db)
    (assignments (blockContractor env id b j db).1).
Proof.
  unfold blockContractor, blockContractor_body, truthy_flag. run_handler.
  repeat (case_match; simpl in *; simplify_eq);
    first [apply assignments_step_refl | apply assignments_step_cancel].
Qed.

Lemma approveProof_assignments sch env id ok j db :
  assignments_step sch (assignments db)
    (assignments (approveProof env id ok j db).1).
Proof.
  unfold approveProof, approveProof_body. run_handler.
  repeat (case_match; simpl in *; simplify_eq);
    first [ apply assignments_step_refl
          | eapply assignments_step_insert; [eassumption|];
            split; [done|]; intros Hact; by apply not_active_completed in Hact ].
Qed.

Lemma handle_assignments sch env req db :
  assignments_step sch (assignments db) (assignments (handle sch env req db).1).
Proof.
  destruct req; simpl.
  - rewrite updateStatus_assignments. apply assignments_step_refl.
  - apply assignReport_assignments.
  - rewrite moderateReport_assignments. apply assignments_step_refl.
  - rewrite flagReport_assignments. apply assignments_step_refl.
  - rewrite escalateReport_assignments. apply assignments_step_refl.
  - apply assignBid_assignments.
  - apply blockContractor_assignments.
  - apply approveProof_assignments.
Qed.

Lemma at_most_one_active_step sch m m' :
  assignment_reportId_unique sch = true ->
  assignments_step sch m m' ->
  (forall i j a b, m !! i = Some a -> m !! j = Some b ->
     a_reportId a = a_reportId b -> active a -> active b -> i = j) ->
  forall i j a b, m' !! i = Some a -> m' !! j = Some b ->
    a_reportId a = a_reportId b -> active a -> active b -> i = j.
Proof.
  intros Hu [Hrows|(nid & x & Hnew & -> & Hfresh)] Hinv i j a b Hi Hj Hsame Ha Hb.
  - pose proof (Hrows i) as Ri. pose proof (Hrows j) as Rj.
    rewrite Hi in Ri. rewrite Hj in Rj.
    inversion Ri as [a0 ? [Hra Haa] Ea|]; inversion Rj as [b0 ? [Hrb Hab] Eb|].
    simplify_eq. apply (Hinv i j a0 b0); auto; congruence.
  - specialize (Hfresh Hu).
    rewrite lookup_insert in Hi, Hj.
    destruct (decide (nid = i)) as [Ei|Hni], (decide (nid = j)) as [Ej|Hnj];
      simplify_eq; try done.
    + destruct Hfresh. by exists j, b.
    + destruct Hfresh. by exists i, a.
    + by apply (Hinv i j a b).
Qed.

Lemma handle_keeps_one_active sch env req db :
  assignment_reportId_unique sch = true ->
  at_most_one_active db ->
  at_most_one_active (handle sch env req db).1.
Proof.
  intros Hu Hinv. unfold at_most_one_active.
  eapply at_most_one_active_step; [done| |done].
  apply handle_assignments.
Qed.

Lemma at_most_one_active_empty : at_most_one_active empty_db.
Proof. intros i j a b Hi. simpl in Hi. by rewrite lookup_empty in Hi. Qed.

(** C3. Under the to-one relation between a report and its Assignment, a
    store in which every report has at most one active Assignment stays so
    through every sequence of privileged requests: neither admission path
    gives a report a second active Assignment, the store refusing the new
    row when the report has one. *)
Theorem one_active_assignment_preserved sch trace db :
  assignment_reportId_unique sch = true ->
  at_most_one_active db ->
  at_most_one_active (serve sch trace db).
Proof.
  intros Hu. revert db.
  induction trace as [|[env req] rest IH]; intros db Hinv; simpl; [done|].
  apply IH. by apply handle_keeps_one_active.
Qed.

(** ** Marking a duplicate *)

(** C5. The moderate route marks a duplicate without looking at the
    canonical report. Any non-empty [duplicateOfId] is stored as given,
    whether it names another report, the report itself or no report at all,
    and the duplicate counter of every report stays as it was. *)
Theorem mark_duplicate_skips_canonical env id j isSpam isSensitive d sev db r :
  justification_rejected j = false ->
  reports db !! id = Some r ->
  d <> "" ->
  exists db' r',
    moderateReport env id "MARK_DUPLICATE" j isSpam isSensitive (Some d) sev db
      = (db', Success "Report moderated successfully")
    /\ reports db' !! id = Some r'
    /\ r_status r' = ReportStatus.DUPLICATE
    /\ r_duplicateOfId r' = Some d
    /\ r_isDuplicate r' = true
    /\ (forall i c, reports db !! i = Some c ->
          exists c', reports db' !! i = Some c'
                     /\ r_noOfDuplicates c' = r_noOfDuplicates c)
    /\ (forall i, i <> id -> reports db' !! i = reports db !! i).
Proof.
  intros Hj Hr Hd. destruct d as [|c d]; [done|]. eexists _, _.
  split; [by eapply moderateReport_spec|]. simpl.
  split; [apply lookup_insert_eq|]. split_and!; try done.
  - intros i c0 Hi. destruct (decide (i = id)) as [->|Hne].
    + rewrite lookup_insert_eq. eexists. split; [done|]. simpl. congruence.
    + rewrite lookup_insert_ne by done. by exists c0.
  - intros i Hi. by rewrite lookup_insert_ne.
Qed.

Lemma mark_duplicate_skips_canonical_witness :
  exists db' r',
    moderateReport sample_env "r1" "MARK_DUPLICATE" sample_justification None None
      (Some "r2") None two_reports_db = (db', Success "Report moderated successfully")
    /\ reports db' !! "r1" = Some r'
    /\ r_status r' = ReportStatus.DUPLICATE
    /\ r_duplicateOfId r' = Some "r2"
    /\ r_isDuplicate r' = true
    /\ (forall i c, reports two_reports_db !! i = Some c ->
          exists c', reports db' !! i = Some c'
                     /\ r_noOfDuplicates c' = r_noOfDuplicates c)
    /\ (forall i, i <> "r1" -> reports db' !! i = reports two_reports_db !! i).
Proof.
  apply (mark_duplicate_skips_canonical sample_env "r1" sample_justification None None
           "r2" None two_reports_db sample_report);
    [reflexivity | reflexivity | discriminate].
Defined.

(** On the store with the reports [r1] and [r2]: marking [r1] as a duplicate
    of [r2] leaves the counter of [r2] at 0; as a duplicate of [r9], which
    names no report, and as a duplicate of itself it answers 200 as well. *)
Example mark_duplicate_of_another :
  let after := moderateReport sample_env "r1" "MARK_DUPLICATE" sample_justification
                 None None (Some "r2") None two_reports_db in
  after.2 = Success "Report moderated successfully"
  /\ r_status <$> reports after.1 !! "r1" = Some ReportStatus.DUPLICATE
  /\ r_noOfDuplicates <$> reports two_reports_db !! "r2" = Some 0
  /\ r_noOfDuplicates <$> reports after.1 !! "r2" = Some 0.
Proof. vm_compute. by split_and!. Qed.

Example mark_duplicate_of_nothing :
  let after := moderateReport sample_env "r1" "MARK_DUPLICATE" sample_justification
                 None None (Some "r9") None two_reports_db in
  reports two_reports_db !! "r9" = None
  /\ after.2 = Success "Report moderated successfully"
  /\ r_status <$> reports after.1 !! "r1" = Some ReportStatus.DUPLICATE
  /\ r_duplicateOfId <$> reports after.1 !! "r1" = Some (Some "r9").
Proof. vm_compute. by split_and!. Qed.

Example mark_duplicate_of_itself :
  let after := moderateReport sample_env "r1" "MARK_DUPLICATE" sample_justification
                 None None (Some "r1") None two_reports_db in
  after.2 = Success "Report moderated successfully"
  /\ r_status <$> reports after.1 !! "r1" = Some ReportStatus.DUPLICATE
  /\ r_duplicateOfId <$> reports after.1 !! "r1" = Some (Some "r1").
Proof. vm_compute. by split_and!. Qed.

(** ** Reviewing a completion proof *)

Lemma approveProof_inv env id isApproved j db db' msg :
  approveProof env id isApproved j db = (db', Success msg) ->
  exists p a r,
    justification_rejected j = false
    /\ proofs db !! id = Some p
    /\ assignments db !! p_assignmentId p = Some a
    /\ reports db !! a_reportId a = Some r
    /\ is_Some (contractors db !! a_contractorId a)
    /\ db' = approveProof_post env id isApproved j p a r db.
Proof.
  unfold approveProof, approveProof_body, approveProof_post. run_handler.
  destruct (justification_rejected j) eqn:Hj; [done|]. simpl.
  destruct (proofs db !! id) as [p|] eqn:Hp; simpl; [|done]. rewrite Hp. simpl.
  destruct (assignments db !! p_assignmentId p) as [a|] eqn:Ha; simpl;
    [|destruct isApproved; simpl; rewrite ?Ha; by simpl].
  destruct (reports db !! a_reportId a) as [r|] eqn:Hr; simpl;
    [|destruct isApproved; simpl; rewrite ?Ha; by simpl].
  destruct (contractors db !! a_contractorId a) as [c|] eqn:Hc; simpl.
  - destruct isApproved; simpl; rewrite ?Ha; simpl; rewrite ?Hr; simpl;
      intros [= <- <-]; exists p, a, r; by split_and!.
  - destruct isApproved; simpl; rewrite ?Ha; simpl; rewrite ?Hr; by simpl.
Qed.

Lemma approveProof_spec env id isApproved j db p a r :
  justification_rejected j = false ->
  proofs db !! id = Some p ->
  assignments db !! p_assignmentId p = Some a ->
  reports db !! a_reportId a = Some r ->
  is_Some (contractors db !! a_contractorId a) ->
  approveProof env id isApproved j db =
    (approveProof_post env id isApproved j p a r db,
     Success (if isApproved then "Proof approved successfully"
              else "Proof rejected successfully")).
Proof.
  intros Hj Hp Ha Hr [c Hc].
  unfold approveProof, approveProof_body, approveProof_post. run_handler.
  rewrite Hj, Hp. simpl. rewrite Hp, Ha. simpl. rewrite Hr, Hc. simpl.
  destruct isApproved; simpl; rewrite ?Ha; simpl; rewrite ?Hr; by simpl.
Qed.


(** ** Blocking a contractor *)

Lemma blockContractor_spec env id isBlocked j db c :
  justification_rejected j = false ->
  contractors db !! id = Some c ->
  blockContractor env id isBlocked j db =
    (blockContractor_post env id isBlocked j c db,
     Success (if truthy_flag isBlocked then "Contractor blocked successfully"
              else "Contractor unblocked successfully")).
Proof.
  intros Hj Hc. unfold blockContractor, blockContractor_body, blockContractor_post.
  run_handler. rewrite Hj, Hc. simpl. rewrite Hc. simpl.
  by destruct (truthy_flag isBlocked).
Qed.

Lemma in_flight_iff a :
  in_flight a = true <->
  a_status a = AssignmentStatus.ASSIGNED \/ a_status a = AssignmentStatus.IN_PROGRESS.
Proof.
  unfold in_flight.
  destruct (a_status a); split;
    first [done | by left | by right | intros [|]; done].
Qed.

(** C8. Blocking a contractor with a justification that passes the check
    sets [isBlocked], cancels each of the contractor's Assignments that is
    ASSIGNED or IN_PROGRESS with the fixed reason and the time of the call,
    leaves every other Assignment as it is, and appends one audit entry
    CONTRACTOR / BLOCKED. *)
Theorem block_cancels_in_flight env id j db c :
  justification_rejected j = false ->
  contractors db !! id = Some c ->
  exists db' c' entry,
    blockContractor env id (Some true) j db
      = (db', Success "Contractor blocked successfully")
    /\ contractors db' !! id = Some c'
    /\ c_isBlocked c' = true
    /\ (forall i a, assignments db !! i = Some a ->
          a_contractorId a = id ->
          a_status a = AssignmentStatus.ASSIGNED
            \/ a_status a = AssignmentStatus.IN_PROGRESS ->
          exists a', assignments db' !! i = Some a'
            /\ a_status a' = AssignmentStatus.CANCELLED
            /\ a_cancelReason a' = Some "Contractor blocked by admin"
            /\ a_cancelledAt a' = Some (now env)
            /\ a_reportId a' = a_reportId a)
    /\ (forall i a, assignments db !! i = Some a ->
          a_contractorId a <> id
            \/ (a_status a <> AssignmentStatus.ASSIGNED
                /\ a_status a <> AssignmentStatus.IN_PROGRESS) ->
          assignments db' !! i = Some a)
    /\ (forall i, assignments db !! i = None -> assignments db' !! i = None)
    /\ adminLog db' = (adminLog db ++ [entry])%list
    /\ l_entityType entry = "CONTRACTOR"
    /\ l_actionType entry = "BLOCKED"
    /\ l_entityId entry = id
    /\ l_justificationMessage entry = j.
Proof.
  intros Hj Hc. eexists _, _, _.
  split; [by apply (blockContractor_spec env id (Some true) j db c)|].
  simpl. split_and!; try done.
  - apply lookup_insert_eq.
  - done.
  - intros i a Hi Hid Hst. rewrite map_lookup_imap, Hi. simpl.
    apply in_flight_iff in Hst. rewrite Hst, Hid, String.eqb_refl. simpl.
    by eexists.
  - intros i a Hi Hother. rewrite map_lookup_imap, Hi. simpl.
    destruct (String.eqb (a_contractorId a) id) eqn:E; simpl; [|done].
    apply String.eqb_eq in E.
    destruct (in_flight a) eqn:F; [|done].
    apply in_flight_iff in F. destruct Hother as [|[]], F; done.
  - intros i Hi. by rewrite map_lookup_imap, Hi.
Qed.

(** ** The closure and completion stamps *)

Lemma parse_CLOSED status :
  ReportStatus.parse status = Some ReportStatus.CLOSED -> status = "CLOSED".
Proof.
  unfold ReportStatus.parse.
  repeat (case_match; simplify_eq); intros; simplify_eq.
  by apply String.eqb_eq.
Qed.

Lemma stamps_step_refl env req id r : stamps_step env req id r r.
Proof. split; by left. Qed.

Ltac report_row id :=
  match goal with
  | |- exists r', <[?k:=?v]> ?m !! id = Some r' /\ _ =>
      destruct (decide (k = id)) as [->|?];
      [ rewrite lookup_insert_eq; simpl in *; simplify_eq
      | rewrite lookup_insert_ne by done ]
  end.

Ltac kept_row :=
  eexists; split; [eassumption | apply stamps_step_refl].

Ltac written_row :=
  eexists; split; [reflexivity | split; simpl; by left].

Lemma updateStatus_reports env id status j db i r :
  reports db !! i = Some r ->
  exists r', reports (updateStatus env id status j db).1 !! i = Some r'
    /\ stamps_step env (PatchStatus id status j) i r r'.
Proof.
  intros Hi. unfold updateStatus, updateStatus_body. run_handler.
  repeat (case_match; simpl in *; simplify_eq); try kept_row.
  report_row i; [|kept_row].
  eexists; split; [reflexivity|]. split; simpl; [|by left].
  case_decide; [|by left]. right. split; [done|].
  subst. match goal with H : ReportStatus.parse _ = _ |- _ => apply parse_CLOSED in H as -> end.
  by eexists.
Qed.

Lemma assignReport_reports sch env id c d dl j db i r :
  reports db !! i = Some r ->
  exists r', reports (assignReport sch env id c d dl j db).1 !! i = Some r'
    /\ stamps_step env (PatchAssign id c d dl j) i r r'.
Proof.
  intros Hi. unfold assignReport, assignReport_body. run_handler.
  repeat (case_match; simpl in *; simplify_eq); try kept_row;
    (report_row i; [written_row|kept_row]).
Qed.

Lemma moderateReport_reports env id action j sp se dup sev db i r :
  reports db !! i = Some r ->
  exists r', reports (moderateReport env id action j sp se dup sev db).1 !! i = Some r'
    /\ stamps_step env (PostModerate id action j sp se dup sev) i r r'.
Proof.
  intros Hi. unfold moderateReport, moderateReport_body. run_handler.
  repeat (case_match; simpl in *; simplify_eq); try kept_row;
    (report_row i; [written_row|kept_row]).
Qed.

Lemma flagReport_reports env id action reason sp se db i r :
  reports db !! i = Some r ->
  exists r', reports (flagReport env id action reason sp se db).1 !! i = Some r'
    /\ stamps_step env (PatchModerate id action reason sp se) i r r'.
Proof.
  intros Hi. unfold flagReport, flagReport_body. run_handler.
  repeat (case_match; simpl in *; simplify_eq); try kept_row;
    (report_row i; [written_row|kept_row]).
Qed.

Lemma escalateReport_reports env id reason db i r :
  reports db !! i = Some r ->
  exists r', reports (escalateReport env id reason db).1 !! i = Some r'
    /\ stamps_step env (PatchEscalate id reason) i r r'.
Proof.
  intros Hi. unfold escalateReport, escalateReport_body. run_handler.
  repeat (case_match; simpl in *; simplify_eq); try kept_row;
    (report_row i; [written_row|kept_row]).
Qed.

Lemma assignBid_reports sch env id bidId j dl db i r :
  reports db !! i = Some r ->
  exists r', reports (assignBid sch env id bidId j dl db).1 !! i = Some r'
    /\ stamps_step env (PostBidAssign id bidId j dl) i r r'.
Proof.
  intros Hi. unfold assignBid, assignBid_body. run_handler.
  repeat (case_match; simpl in *; simplify_eq); try kept_row;
    (report_row i; [written_row|kept_row]).
Qed.

Lemma blockContractor_reports env id b j db i r :
  reports db !! i = Some r ->
  exists r', reports (blockContractor env id b j db).1 !! i = Some r'
    /\ stamps_step env (PatchBlock id b j) i r r'.
Proof.
  intros Hi. unfold blockContractor, blockContractor_body, truthy_flag. run_handler.
  repeat (case_match; simpl in *; simplify_eq); kept_row.
Qed.

Lemma approveProof_reports env id ok j db i r :
  reports db !! i = Some r ->
  exists r', reports (approveProof env id ok j db).1 !! i = Some r'
    /\ stamps_step env (PatchProof id ok j) i r r'.
Proof.
  intros Hi. unfold approveProof, approveProof_body. run_handler.
  repeat (case_match; simpl in *; simplify_eq); try kept_row;
    (report_row i; [|kept_row]);
    (eexists; split; [reflexivity|]; split; simpl; [by left|]; right;
     split; [done|by eexists _, _]).
Qed.

Lemma handle_reports sch env req db i r :
  reports db !! i = Some r ->
  exists r', reports (handle sch env req db).1 !! i = Some r'
    /\ stamps_step env req i r r'.
Proof.
  destruct req; simpl.
  - apply updateStatus_reports.
  - apply assignReport_reports.
  - apply moderateReport_reports.
  - apply flagReport_reports.
  - apply escalateReport_reports.
  - apply assignBid_reports.
  - apply blockContractor_reports.
  - apply approveProof_reports.
Qed.

(** C6, as amended. A status change to CLOSED that answers 200 sets
    [closedAt] to the time of that call, and an approval that answers 200
    sets [completedAt] of the report of the proof's Assignment to the time
    of that call; no other privileged request changes either stamp of any
    report, and no request removes a report. *)
Theorem stamps_follow_transitions sch env req db id r :
  reports db !! id = Some r ->
  exists r',
    reports (handle sch env req db).1 !! id = Some r'
    /\ (r_closedAt r' = r_closedAt r
        \/ (r_closedAt r' = Some (now env) /\ exists j, req = PatchStatus id "CLOSED" j))
    /\ (r_completedAt r' = r_completedAt r
        \/ (r_completedAt r' = Some (now env)
            /\ exists pid j, req = PatchProof pid true j))
    /\ (forall j msg,
          req = PatchStatus id "CLOSED" j ->
          (handle sch env req db).2 = Success msg ->
          r_closedAt r' = Some (now env))
    /\ (forall pid j msg p a,
          req = PatchProof pid true j ->
          (handle sch env req db).2 = Success msg ->
          proofs db !! pid = Some p ->
          assignments db !! p_assignmentId p = Some a ->
          a_reportId a = id ->
          r_completedAt r' = Some (now env)).
Proof.
  intros Hr.
  destruct (handle_reports sch env req db id r Hr) as (r' & Hr' & Hclosed & Hcompleted).
  exists r'. split_and!; try done.
  - intros j msg -> Hok. simpl in *.
    destruct (justification_rejected j) eqn:Hj.
    + destruct (short_justification_rejected sch env (PatchStatus id "CLOSED" j) j db eq_refl Hj)
        as [m Hm].
      simpl in Hm. rewrite Hm in Hok. done.
    + rewrite (updateStatus_spec env id "CLOSED" ReportStatus.CLOSED j db r Hj eq_refl Hr)
        in Hr'.
      simpl in Hr'. rewrite lookup_insert_eq in Hr'. by simplify_eq.
  - intros pid j msg p a -> Hok Hp Ha Hid. simpl in *.
    destruct (approveProof env pid true j db) as [db' resp] eqn:Hcall.
    simpl in *. subst resp.
    apply approveProof_inv in Hcall as (p0 & a0 & r0 & _ & Hp0 & Ha0 & Hr0 & _ & ->).
    simplify_eq. simpl in Hr'. rewrite lookup_insert_eq in Hr'. by simplify_eq.
Qed.

Lemma stamps_follow_transitions_witness :
  exists r',
    reports (handle (mkSchema true) sample_env
               (PatchStatus "r1" "CLOSED" sample_justification) sample_db).1 !! "r1"
      = Some r'
    /\ (r_closedAt r' = r_closedAt sample_report
        \/ (r_closedAt r' = Some (now sample_env)
            /\ exists j, PatchStatus "r1" "CLOSED" sample_justification
                         = PatchStatus "r1" "CLOSED" j))
    /\ (r_completedAt r' = r_completedAt sample_report
        \/ (r_completedAt r' = Some (now sample_env)
            /\ exists pid j, PatchStatus "r1" "CLOSED" sample_justification
                             = PatchProof pid true j))
    /\ (forall j msg,
          PatchStatus "r1" "CLOSED" sample_justification = PatchStatus "r1" "CLOSED" j ->
          (handle (mkSchema true) sample_env
             (PatchStatus "r1" "CLOSED" sample_justification) sample_db).2 = Success msg ->
          r_closedAt r' = Some (now sample_env))
    /\ (forall pid j msg p a,
          PatchStatus "r1" "CLOSED" sample_justification = PatchProof pid true j ->
          (handle (mkSchema true) sample_env
             (PatchStatus "r1" "CLOSED" sample_justification) sample_db).2 = Success msg ->
          proofs sample_db !! pid = Some p ->
          assignments sample_db !! p_assignmentId p = Some a ->
          a_reportId a = "r1" ->
          r_completedAt r' = Some (now sample_env)).
Proof.
  apply (stamps_follow_transitions (mkSchema true) sample_env
           (PatchStatus "r1" "CLOSED" sample_justification) sample_db "r1" sample_report).
  reflexivity.
Defined.

(** C6 as stated fails. Closing a report that is closed already writes
    [closedAt] again, and approving a proof whose report is completed
    already writes [completedAt] again. *)
Lemma stamps_overwritten_on_repeat :
  ~ (forall env id j db r r',
       reports db !! id = Some r ->
       is_Some (r_closedAt r) ->
       reports (updateStatus env id "CLOSED" j db).1 !! id = Some r' ->
       r_closedAt r' = r_closedAt r)
  /\ ~ (forall env id j db p a r r',
          proofs db !! id = Some p ->
          assignments db !! p_assignmentId p = Some a ->
          reports db !! a_reportId a = Some r ->
          is_Some (r_completedAt r) ->
          reports (approveProof env id true j db).1 !! a_reportId a = Some r' ->
          r_completedAt r' = r_completedAt r).
Proof.
  split; intros stated.
  - pose (closed :=
      (updateStatus sample_env "r1" "CLOSED" sample_justification sample_db).1).
    specialize (stated later_env "r1" sample_justification closed
                  (status_data sample_env ReportStatus.CLOSED sample_report)
                  (status_data later_env ReportStatus.CLOSED
                     (status_data sample_env ReportStatus.CLOSED sample_report))).
    discriminate stated; [reflexivity | by eexists | reflexivity].
  - specialize (stated later_env "p1" sample_justification approved_db
                  (review_data second_env true sample_justification
                     (mkProof "asg-1" ProofStatus.PENDING None None None))
                  (complete_assignment_data second_env
                     (direct_assignment sample_env "r1" "c1" None))
                  (complete_report_data second_env
                     (assign_data sample_env None sample_report))
                  (complete_report_data later_env
                     (complete_report_data second_env
                        (assign_data sample_env None sample_report)))).
    discriminate stated; try reflexivity. by eexists.
Qed.

(** ** The priority score and the listing *)


Lemma getReport_pure env id db : (getReport env id db).1 = db.
Proof.
  unfold getReport, getReport_body. run_handler.
  repeat (case_match; simpl in *; simplify_eq); done.
Qed.


Lemma ordered_Permutation q rows sorted :
  ordered q rows = Some sorted -> sorted ≡ₚ rows.
Proof.
  unfold ordered. destruct (String.eqb (q_sortBy q) "priorityScore").
  - intros [= <-]. apply merge_sort_Permutation.
  - destruct (column (q_sortBy q)) as [key|]; [|done]. simpl.
    destruct (direction (q_sortOrder q)) as [descending|]; [|done]. simpl.
    intros [= <-]. apply merge_sort_Permutation.
Qed.

Lemma getReports_Some q db l :
  (getReports q db).2 = Some l ->
  exists sorted,
    let rows := filter (fun row => where_ q row.1 row.2 = true)
                  (map_to_list (reports db)) in
    ordered q rows = Some sorted
    /\ 0 <= (Z.of_nat (q_page q) - 1) * Z.of_nat (q_limit q)
    /\ l = mkListing
             (map (with_priority db)
                (take (q_limit q)
                   (drop (Z.to_nat ((Z.of_nat (q_page q) - 1) * Z.of_nat (q_limit q)))
                      sorted)))
             (length rows).
Proof.
  unfold getReports, getReports_body. run_handler.
  destruct (_ <? 0) eqn:Hskip; simpl; [done|].
  destruct (ordered q _) as [sorted|] eqn:Ho; simpl; [|done].
  intros [= <-]. exists sorted. split_and!; [done|lia|done].
Qed.






(** The scenario on the store: both views show 96. *)
Example scenario_score :
  (metrics_priorityScore ∘ snd <$> (getReport sample_env "r1" scenario_db).2) = Some 96
  /\ (map lr_priorityScore ∘ listed <$> (getReports priority_query scenario_db).2)
     = Some [96].
Proof. vm_compute. by split. Qed.

#[global] Instance by_severity_upvotes_createdAt_total : Total by_severity_upvotes_createdAt.
Proof. intros x y. unfold by_severity_upvotes_createdAt. lia. Qed.

#[global] Instance by_severity_upvotes_createdAt_trans :
  Transitive by_severity_upvotes_createdAt.
Proof. intros x y z. unfold by_severity_upvotes_createdAt. lia. Qed.




(** ** The workflow on sample stores *)

Lemma assignBid_never_accepts_witness :
  assignBid (mkSchema true) sample_env "r1" "b1" sample_justification None bidding_db
    = (bidding_db, Failure 500 "Failed to assign bid")
  /\ (forall j' deadline' message,
        (assignBid (mkSchema true) sample_env "r1" "b1" j' deadline' bidding_db).2
        <> Success message).
Proof.
  apply (assignBid_never_accepts (mkSchema true) sample_env "r1" "b1"
           sample_justification None bidding_db).
  reflexivity.
Defined.

(** The pending bid [b1] of report [r1], its sibling [b2] and the report
    after the call. *)
Example pending_bid_stays_pending :
  let after := (assignBid (mkSchema true) sample_env "r1" "b1" sample_justification None
                  bidding_db).1 in
  b_status <$> bids after !! "b1" = Some BidStatus.PENDING
  /\ b_status <$> bids after !! "b2" = Some BidStatus.PENDING
  /\ assignments after = ∅
  /\ r_status <$> reports after !! "r1" = Some ReportStatus.OPEN.
Proof. vm_compute. by split_and!. Qed.

Lemma at_most_one_active_assigned : at_most_one_active assigned_db.
Proof.
  intros i j a b Hi Hj _ _ _.
  assert (forall k x, assignments assigned_db !! k = Some x -> k = "asg-1") as Honly.
  { intros k x Hk. change (assignments assigned_db) with
      (<["asg-1" := direct_assignment sample_env "r1" "c1" None]>
         (∅ : gmap string Assignment)) in Hk.
    apply lookup_insert_Some in Hk as [[<- _]|[_ Hk]]; [done|].
    by rewrite lookup_empty in Hk. }
  by rewrite (Honly i a Hi), (Honly j b Hj).
Qed.

Lemma one_active_assignment_preserved_witness :
  at_most_one_active
    (serve (mkSchema true)
       [ (second_env, PatchAssign "r1" (Some "c2") None None sample_justification);
         (second_env, PostBidAssign "r1" "b2" sample_justification None) ]
       assigned_db).
Proof.
  apply (one_active_assignment_preserved (mkSchema true)
           [ (second_env, PatchAssign "r1" (Some "c2") None None sample_justification);
             (second_env, PostBidAssign "r1" "b2" sample_justification None) ]
           assigned_db).
  - reflexivity.
  - exact at_most_one_active_assigned.
Defined.

(** With the to-one relation, a direct assignment of a report that has an
    Assignment fails at the store and changes nothing; a bid acceptance for
    that report is refused before the store is asked. *)
Example direct_assignment_refused :
  handle (mkSchema true) second_env
    (PatchAssign "r1" (Some "c2") None None sample_justification) assigned_db
  = (assigned_db, Failure 500 "Failed to assign report").
Proof. vm_compute. reflexivity. Qed.

Example acceptance_refused :
  handle (mkSchema true) second_env
    (PostBidAssign "r1" "b2" sample_justification None) assigned_db
  = (assigned_db, Failure 500 "Failed to assign bid").
Proof. vm_compute. reflexivity. Qed.

(** Without that constraint the same direct assignment adds a second
    active Assignment for the report. *)
Example unconstrained_store_admits_two :
  ~ at_most_one_active
      (handle (mkSchema false) second_env
         (PatchAssign "r1" (Some "c2") None None sample_justification) assigned_db).1.
Proof.
  intros H.
  specialize (H "asg-1" "asg-2"
    (direct_assignment sample_env "r1" "c1" None)
    (mkAssignment "r1" "c2" "admin-2" None None None AssignmentStatus.ASSIGNED
       None None None)).
  discriminate H; try reflexivity; by split.
Qed.


Lemma block_cancels_in_flight_witness :
  exists db' c' entry,
    blockContractor second_env "c1" (Some true) sample_justification assigned_db
      = (db', Success "Contractor blocked successfully")
    /\ contractors db' !! "c1" = Some c'
    /\ c_isBlocked c' = true
    /\ (forall i a, assignments assigned_db !! i = Some a ->
          a_contractorId a = "c1" ->
          a_status a = AssignmentStatus.ASSIGNED
            \/ a_status a = AssignmentStatus.IN_PROGRESS ->
          exists a', assignments db' !! i = Some a'
            /\ a_status a' = AssignmentStatus.CANCELLED
            /\ a_cancelReason a' = Some "Contractor blocked by admin"
            /\ a_cancelledAt a' = Some (now second_env)
            /\ a_reportId a' = a_reportId a)
    /\ (forall i a, assignments assigned_db !! i = Some a ->
          a_contractorId a <> "c1"
            \/ (a_status a <> AssignmentStatus.ASSIGNED
                /\ a_status a <> AssignmentStatus.IN_PROGRESS) ->
          assignments db' !! i = Some a)
    /\ (forall i, assignments assigned_db !! i = None -> assignments db' !! i = None)
    /\ adminLog db' = (adminLog assigned_db ++ [entry])%list
    /\ l_entityType entry = "CONTRACTOR"
    /\ l_actionType entry = "BLOCKED"
    /\ l_entityId entry = "c1"
    /\ l_justificationMessage entry = sample_justification.
Proof.
  apply (block_cancels_in_flight second_env "c1" sample_justification assigned_db
           sample_contractor); reflexivity.
Defined.

(** * The rest of the admin surface: properties *)

(** ** Authentication *)

Lemma getUserFromToken_known u :
  In u FAKE_USERS -> getUserFromToken (Some (fu_token u)) = Some (userWithoutPassword u).
Proof.
  intros Hu. simpl in Hu.
  destruct Hu as [<-|[<-|[<-|[<-|[]]]]]; reflexivity.
Qed.

Lemma getUserFromToken_Some token user :
  getUserFromToken token = Some user <->
  exists u, In u FAKE_USERS /\ token = Some (fu_token u) /\ user = userWithoutPassword u.
Proof.
  split.
  - unfold getUserFromToken. destruct token as [[|a t]|]; [done| |done].
    destruct (List.find _ FAKE_USERS) as [u|] eqn:Hfind; [|done].
    intros [= <-]. apply List.find_some in Hfind as [Hin Heq].
    apply String.eqb_eq in Heq. exists u. by rewrite Heq.
  - intros (u & Hin & -> & ->). by apply getUserFromToken_known.
Qed.

Lemma truthy_token u : In u FAKE_USERS -> truthy_id (Some (fu_token u)) = true.
Proof. intros Hu. simpl in Hu. destruct Hu as [<-|[<-|[<-|[<-|[]]]]]; reflexivity. Qed.

Lemma substring_all s : String.substring 0 (String.length s) s = s.
Proof. induction s as [|a s IH]; simpl; [done|]. by rewrite IH. Qed.

Lemma substring_skip p s n :
  String.substring (String.length p) n (p ++ s) = String.substring 0 n s.
Proof. induction p as [|a p IH]; simpl; [done|]. apply IH. Qed.

Lemma prefix_app p s : String.prefix p (p ++ s) = true.
Proof.
  induction p as [|a p IH]; simpl; [by destruct s|].
  destruct (ascii_dec a a); [apply IH|done].
Qed.

(** The header [Bearer <token>] carries the token when the cookie is
    missing or empty. *)
Lemma request_token_bearer cookie t :
  truthy_id cookie = false ->
  request_token (mkCredentials cookie (Some ("Bearer " ++ t))) = Some t.
Proof.
  intros Hc. unfold request_token. cbn [cookie_token authorization].
  rewrite Hc, prefix_app.
  change 7%nat with (String.length "Bearer ") at 1.
  replace (String.length ("Bearer " ++ t) - 7)%nat with (String.length t)
    by (cbv [String.append]; simpl; lia).
  by rewrite substring_skip, substring_all.
Qed.

Lemma request_token_cookie cookie header :
  cookie <> "" ->
  request_token (mkCredentials (Some cookie) header) = Some cookie.
Proof. intros H. unfold request_token. by destruct cookie. Qed.

Lemma authenticate_passes_iff_aux requiredRoles c u :
  In u FAKE_USERS ->
  request_token c = Some (fu_token u) ->
  hasRequiredRole (fu_role u) requiredRoles = true ->
  authenticate requiredRoles c = inr (userWithoutPassword u).
Proof.
  intros Hin Htok Hrole. unfold authenticate.
  rewrite Htok, (truthy_token u Hin), (getUserFromToken_known u Hin). simpl.
  by rewrite Hrole.
Qed.

Lemma authenticate_passes_iff_aux_inv requiredRoles c user :
  authenticate requiredRoles c = inr user ->
  exists u,
    In u FAKE_USERS
    /\ request_token c = Some (fu_token u)
    /\ hasRequiredRole (fu_role u) requiredRoles = true
    /\ user = userWithoutPassword u.
Proof.
  unfold authenticate.
  destruct (truthy_id (request_token c)) eqn:Ht; simpl; [|done].
  destruct (getUserFromToken (request_token c)) as [found|] eqn:Hg; [|done].
  apply getUserFromToken_Some in Hg as (u & Hin & Htok & ->).
  simpl. destruct (hasRequiredRole (fu_role u) requiredRoles) eqn:Hrole; simpl; [|done].
  intros [= <-]. by exists u.
Qed.

(** X1. The middleware lets a request through exactly when its token is
    the token of one of the fixed accounts and the role of that account is
    among the required ones (or none is required); the user it attaches is
    that account without its password. *)
Theorem authenticate_passes_iff requiredRoles c user :
  authenticate requiredRoles c = inr user <->
  exists u,
    In u FAKE_USERS
    /\ request_token c = Some (fu_token u)
    /\ hasRequiredRole (fu_role u) requiredRoles = true
    /\ user = userWithoutPassword u.
Proof.
  split.
  - apply authenticate_passes_iff_aux_inv.
  - intros (u & Hin & Htok & Hrole & ->). by apply authenticate_passes_iff_aux.
Qed.

(** X2. A non-empty [token] cookie decides alone: the [Authorization]
    header is not looked at, so a stale cookie is refused even beside a good
    header. Without a cookie, the header [Bearer t] counts as the cookie [t]. *)
Theorem cookie_before_bearer requiredRoles t header :
  t <> "" ->
  authenticate requiredRoles (mkCredentials (Some t) header)
    = authenticate requiredRoles (mkCredentials (Some t) None)
  /\ authenticate requiredRoles (mkCredentials None (Some ("Bearer " ++ t)))
       = authenticate requiredRoles (mkCredentials (Some t) None)
  /\ authenticate requiredRoles (mkCredentials (Some "") (Some ("Bearer " ++ t)))
       = authenticate requiredRoles (mkCredentials (Some t) None).
Proof.
  intros Ht. unfold authenticate.
  rewrite !(request_token_cookie t _ Ht).
  rewrite (request_token_bearer None t eq_refl).
  by rewrite (request_token_bearer (Some "") t eq_refl).
Qed.

Lemma cookie_before_bearer_witness :
  authenticate ["ADMIN"; "MODERATOR"]
      (mkCredentials (Some "stale") (Some "Bearer fake-jwt-token-admin"))
    = authenticate ["ADMIN"; "MODERATOR"] (mkCredentials (Some "stale") None)
  /\ authenticate ["ADMIN"; "MODERATOR"]
       (mkCredentials None (Some ("Bearer " ++ "stale")))
       = authenticate ["ADMIN"; "MODERATOR"] (mkCredentials (Some "stale") None)
  /\ authenticate ["ADMIN"; "MODERATOR"]
       (mkCredentials (Some "") (Some ("Bearer " ++ "stale")))
       = authenticate ["ADMIN"; "MODERATOR"] (mkCredentials (Some "stale") None).
Proof.
  apply (cookie_before_bearer ["ADMIN"; "MODERATOR"] "stale"
           (Some "Bearer fake-jwt-token-admin")).
  discriminate.
Defined.

Lemma validateCredentials_Some id password user :
  validateCredentials id password = Some user <->
  exists u, In u FAKE_USERS /\ id = Some (fu_id u) /\ password = Some (fu_password u)
            /\ user = userWithoutPassword u.
Proof.
  unfold validateCredentials. split.
  - destruct (List.find _ FAKE_USERS) as [u|] eqn:Hfind; [|done].
    intros [= <-]. apply List.find_some in Hfind as [Hin Heq].
    apply andb_prop in Heq as [Hid Hpw].
    apply bool_decide_eq_true in Hid, Hpw. by exists u.
  - intros (u & Hin & -> & -> & ->). simpl in Hin.
    destruct Hin as [<-|[<-|[<-|[<-|[]]]]]; reflexivity.
Qed.

(** X3. A login succeeds exactly for the id and password of one of the
    fixed accounts (both given and non-empty, compared as they are); the
    token it hands out then passes the middleware of every route that
    admits the role of the account, as a cookie and as a Bearer header, and
    attaches the same account. *)
Theorem login_token_authenticates id password user :
  login id password = inr user <->
  exists u,
    In u FAKE_USERS /\ id = Some (fu_id u) /\ password = Some (fu_password u)
    /\ user = userWithoutPassword u
    /\ forall requiredRoles,
         hasRequiredRole (au_role user) requiredRoles = true ->
         authenticate requiredRoles (mkCredentials (Some (au_token user)) None)
           = inr user
         /\ authenticate requiredRoles
              (mkCredentials None (Some ("Bearer " ++ au_token user))) = inr user.
Proof.
  unfold login. split.
  - destruct (negb (truthy_id id) || negb (truthy_id password)); [done|].
    destruct (validateCredentials id password) as [found|] eqn:Hv; [|done].
    intros [= <-].
    apply validateCredentials_Some in Hv as (u & Hin & -> & -> & ->).
    exists u. split_and!; try done.
    intros roles Hrole.
    assert (authenticate roles (mkCredentials (Some (fu_token u)) None)
            = inr (userWithoutPassword u)) as Hcookie.
    { apply authenticate_passes_iff_aux; [done| |done].
      apply request_token_cookie. intros E.
      pose proof (truthy_token u Hin) as Ht. by rewrite E in Ht. }
    split; [exact Hcookie|].
    simpl. unfold authenticate. rewrite (request_token_bearer None _ eq_refl).
    unfold authenticate in Hcookie.
    rewrite request_token_cookie in Hcookie; [exact Hcookie|].
    intros E. pose proof (truthy_token u Hin) as Ht. by rewrite E in Ht.
  - intros (u & Hin & -> & -> & -> & _). simpl in Hin.
    destruct Hin as [<-|[<-|[<-|[<-|[]]]]]; reflexivity.
Qed.

(** ** The logs *)

Ltac check_entries :=
  unfold appended_by, signed_by, appended_shape; simpl;
  rewrite ?app_nil_r;
  split_and!; solve [reflexivity | done | repeat constructor].

Ltac log_entries :=
  first
    [ exists (mkAppended [] [] []); check_entries
    | eexists (mkAppended [_] [] []); check_entries
    | eexists (mkAppended [] [_] []); check_entries
    | eexists (mkAppended [_] [_] []); check_entries
    | eexists (mkAppended [_] [] [_]); check_entries
    | eexists (mkAppended [_] [_] [_]); check_entries ].

Ltac handler_logs :=
  run_handler;
  repeat (case_match; simpl in *; simplify_eq);
  log_entries.

Lemma handle_logs sch env req db :
  exists a,
    appended_by db (handle sch env req db).1 a
    /\ signed_by env req a
    /\ appended_shape a =
         if is_success (handle sch env req db).2 then log_shape req else (0, 0, 0)%nat.
Proof.
  destruct req; simpl.
  - unfold updateStatus, updateStatus_body. handler_logs.
  - unfold assignReport, assignReport_body. handler_logs.
  - unfold moderateReport, moderateReport_body. handler_logs.
  - unfold flagReport, flagReport_body. handler_logs.
  - unfold escalateReport, escalateReport_body. handler_logs.
  - unfold assignBid, assignBid_body. handler_logs.
  - unfold blockContractor, blockContractor_body, truthy_flag. handler_logs.
  - unfold approveProof, approveProof_body. handler_logs.
Qed.

(** X4. A request that does not answer 200 leaves the three logs as they
    were, also when it has changed the store before failing. *)
Theorem failed_request_leaves_no_log sch env req db :
  is_success (handle sch env req db).2 = false ->
  reportHistory (handle sch env req db).1 = reportHistory db
  /\ adminLog (handle sch env req db).1 = adminLog db
  /\ moderatorAction (handle sch env req db).1 = moderatorAction db.
Proof.
  intros Hfail.
  destruct (handle_logs sch env req db) as ([hs ls ms] & (Hh & Hl & Hm) & _ & Hshape).
  rewrite Hfail in Hshape. unfold appended_shape in Hshape. simpl in *.
  injection Hshape as Eh El Em.
  apply nil_length_inv in Eh, El, Em. subst.
  by rewrite !app_nil_r in *.
Qed.

Lemma failed_request_leaves_no_log_witness :
  let served := handle (mkSchema true) second_env
                  (PostBidAssign "r1" "b2" sample_justification None) assigned_db in
  reportHistory served.1 = reportHistory assigned_db
  /\ adminLog served.1 = adminLog assigned_db
  /\ moderatorAction served.1 = moderatorAction assigned_db.
Proof.
  apply (failed_request_leaves_no_log (mkSchema true) second_env
           (PostBidAssign "r1" "b2" sample_justification None) assigned_db).
  vm_compute. reflexivity.
Defined.

(** X5. A request that answers 200 appends to the logs and changes nothing
    in them: one history entry and one admin-log entry for a status change,
    an assignment, a bid acceptance and a proof review; these two and a
    moderator action for POST moderate; a history entry and a moderator
    action but no admin-log entry for PATCH moderate; a history entry alone
    for an escalation; an admin-log entry alone for a block or unblock. Each
    entry names the caller, the time of the call and the text given. *)
Theorem successful_request_logs sch env req db msg :
  (handle sch env req db).2 = Success msg ->
  exists a,
    appended_by db (handle sch env req db).1 a
    /\ signed_by env req a
    /\ appended_shape a = log_shape req.
Proof.
  intros Hok.
  destruct (handle_logs sch env req db) as (a & Happ & Hsig & Hshape).
  rewrite Hok in Hshape. by exists a.
Qed.

Lemma successful_request_logs_witness :
  exists a,
    appended_by sample_db
      (handle (mkSchema true) sample_env (PatchEscalate "r1" None) sample_db).1 a
    /\ signed_by sample_env (PatchEscalate "r1" None) a
    /\ appended_shape a = log_shape (PatchEscalate "r1" None).
Proof.
  apply (successful_request_logs (mkSchema true) sample_env (PatchEscalate "r1" None)
           sample_db "Report escalated successfully").
  reflexivity.
Defined.

(** X6. Through any sequence of requests the three logs only grow: what
    was logged stays, in its order, at the head of each log. *)
Theorem logs_only_grow sch trace db :
  reportHistory db `prefix_of` reportHistory (serve sch trace db)
  /\ adminLog db `prefix_of` adminLog (serve sch trace db)
  /\ moderatorAction db `prefix_of` moderatorAction (serve sch trace db).
Proof.
  revert db. induction trace as [|[env req] rest IH]; intros db; simpl; [done|].
  destruct (handle_logs sch env req db) as (a & (Hh & Hl & Hm) & _).
  destruct (IH (handle sch env req db).1) as (Ih & Il & Im).
  split_and!.
  - etransitivity; [|exact Ih]. rewrite Hh. by apply prefix_app_r.
  - etransitivity; [|exact Il]. rewrite Hl. by apply prefix_app_r.
  - etransitivity; [|exact Im]. rewrite Hm. by apply prefix_app_r.
Qed.

(** ** Refusals *)

Ltac unchanged_store :=
  run_handler;
  repeat (case_match; simpl in *; simplify_eq);
  intros [?|?]; simplify_eq; done.

(** X7. A request answered 400 or 404 has changed nothing in the store. *)
Theorem refusals_change_nothing sch env req db message :
  (handle sch env req db).2 = Failure 400 message
  \/ (handle sch env req db).2 = Failure 404 message ->
  (handle sch env req db).1 = db.
Proof.
  destruct req; simpl.
  - unfold updateStatus, updateStatus_body. unchanged_store.
  - unfold assignReport, assignReport_body. unchanged_store.
  - unfold moderateReport, moderateReport_body. unchanged_store.
  - unfold flagReport, flagReport_body. unchanged_store.
  - unfold escalateReport, escalateReport_body. unchanged_store.
  - unfold assignBid, assignBid_body. unchanged_store.
  - unfold blockContractor, blockContractor_body, truthy_flag. unchanged_store.
  - unfold approveProof, approveProof_body. unchanged_store.
Qed.

Lemma refusals_change_nothing_witness :
  (handle (mkSchema true) sample_env
     (PatchStatus "r9" "CLOSED" sample_justification) bidding_db).1 = bidding_db.
Proof.
  apply (refusals_change_nothing (mkSchema true) sample_env
           (PatchStatus "r9" "CLOSED" sample_justification) bidding_db
           "Report not found").
  right. reflexivity.
Defined.

(** ** The router *)

Lemma hasRequiredRole_In role roles :
  roles <> [] -> hasRequiredRole role roles = true -> In role roles.
Proof.
  intros Hne. unfold hasRequiredRole. destruct roles as [|r roles]; [done|].
  intros H. apply existsb_exists in H as (x & Hin & Heq).
  apply String.eqb_eq in Heq. by subst.
Qed.

Lemma route_cases sch clock fresh c req db :
  (exists status message,
     route sch clock fresh c req db = (db, Failure status message)
     /\ (status = 401 \/ status = 403))
  \/ (exists u,
        In u FAKE_USERS
        /\ request_token c = Some (fu_token u)
        /\ In (fu_role u) (required_roles req)
        /\ route sch clock fresh c req db
           = handle sch (mkEnv (fu_id u) (fu_role u) clock fresh) req db).
Proof.
  unfold route.
  destruct (authenticate (required_roles req) c) as [refusal|user] eqn:Hauth.
  - left. unfold authenticate in Hauth.
    repeat (case_match; simplify_eq); eexists _, _; split; eauto.
  - right. apply authenticate_passes_iff_aux_inv in Hauth
      as (u & Hin & Htok & Hrole & ->).
    exists u. split_and!; try done.
    apply hasRequiredRole_In; [by destruct req|done].
Qed.

(** X8. The router serves a request only to a caller whose token is the
    one of a fixed account with a role of the route: ADMIN or MODERATOR on
    the report, bid and proof routes, ADMIN or SUPERADMIN on the contractor
    block. Every other caller is answered 401 or 403 and the store is left
    as it was. *)
Theorem route_needs_privilege sch clock fresh c req db :
  (forall u, In u FAKE_USERS -> request_token c = Some (fu_token u) ->
             ~ In (fu_role u) (required_roles req)) ->
  exists status message,
    route sch clock fresh c req db = (db, Failure status message)
    /\ (status = 401 \/ status = 403).
Proof.
  intros Hnone.
  destruct (route_cases sch clock fresh c req db)
    as [Hrefused|(u & Hin & Htok & Hrole & _)]; [done|].
  by destruct (Hnone u Hin Htok).
Qed.

Lemma route_needs_privilege_witness :
  exists status message,
    route (mkSchema true) 1000 "asg-1"
      (mkCredentials None (Some "Bearer fake-jwt-token-superadmin"))
      (PatchStatus "r1" "CLOSED" sample_justification) sample_db
      = (sample_db, Failure status message)
    /\ (status = 401 \/ status = 403).
Proof.
  apply (route_needs_privilege (mkSchema true) 1000 "asg-1"
           (mkCredentials None (Some "Bearer fake-jwt-token-superadmin"))
           (PatchStatus "r1" "CLOSED" sample_justification) sample_db).
  intros u Hin Htok. simpl in Hin.
  destruct Hin as [<-|[<-|[<-|[<-|[]]]]]; vm_compute in Htok; try discriminate Htok.
  simpl. intros [H|[H|[]]]; discriminate H.
Defined.

(** X9. Whatever a routed request appends to the admin log, the report
    history or the moderator actions names the account that owns the token
    of the request. *)
Theorem routed_entries_name_the_caller sch clock fresh c req db :
  exists a,
    appended_by db (route sch clock fresh c req db).1 a
    /\ forall u,
         In u FAKE_USERS -> request_token c = Some (fu_token u) ->
         Forall (fun h => h_actorId h = fu_id u) (new_history a)
         /\ Forall (fun l => l_adminId l = fu_id u /\ l_adminRole l = fu_role u)
              (new_adminLog a)
         /\ Forall (fun m => m_moderatorId m = fu_id u) (new_moderatorAction a).
Proof.
  destruct (route_cases sch clock fresh c req db)
    as [(status & message & -> & _)|(u & Hin & Htok & _ & ->)].
  - exists (mkAppended [] [] []). split.
    + unfold appended_by. simpl. by rewrite !app_nil_r.
    + intros u _ _. simpl. by split_and!.
  - destruct (handle_logs sch (mkEnv (fu_id u) (fu_role u) clock fresh) req db)
      as (a & Happ & (Hh & Hl & Hm) & _).
    exists a. split; [done|].
    intros u' Hin' Htok'.
    assert (u' = u) as ->.
    { rewrite Htok in Htok'. injection Htok' as Heq. simpl in Hin, Hin'.
      destruct Hin as [<-|[<-|[<-|[<-|[]]]]], Hin' as [<-|[<-|[<-|[<-|[]]]]];
        first [reflexivity | discriminate Heq]. }
    simpl in *. split_and!.
    + eapply Forall_impl; [exact Hh|]. by intros h (? & _).
    + eapply Forall_impl; [exact Hl|]. by intros l (? & ? & _).
    + eapply Forall_impl; [exact Hm|]. by intros m (? & _).
Qed.

(** ** More on the handlers *)

Lemma parse_status_name status target :
  ReportStatus.parse status = Some target <-> status = status_name target.
Proof.
  split.
  - unfold ReportStatus.parse.
    repeat (case_match; [intros [= <-]; by apply String.eqb_eq|]). done.
  - intros ->. by destruct target.
Qed.

(** X10. The status route answers 200 exactly when the justification
    passes, the status is one of the thirteen names and the report exists;
    the report then has the named status, whatever its status was: no
    transition is refused, not even out of CLOSED. *)
Theorem status_route_any_to_any env id status j db :
  (exists message, (updateStatus env id status j db).2 = Success message) <->
  justification_rejected j = false
  /\ exists target r,
       status = status_name target
       /\ reports db !! id = Some r
       /\ reports (updateStatus env id status j db).1 !! id
          = Some (status_data env target r)
       /\ r_status (status_data env target r) = target.
Proof.
  split.
  - intros [message Hok].
    destruct (justification_rejected j) eqn:Hj.
    { exfalso. unfold updateStatus, updateStatus_body in Hok. by rewrite Hj in Hok. }
    destruct (ReportStatus.parse status) as [target|] eqn:Hp.
    2: { exfalso. unfold updateStatus, updateStatus_body in Hok.
         by rewrite Hj, Hp in Hok. }
    destruct (reports db !! id) as [r|] eqn:Hr.
    2: { exfalso. unfold updateStatus, updateStatus_body in Hok.
         rewrite Hj, Hp in Hok. run_handler. by rewrite Hr in Hok. }
    split; [done|]. exists target, r. split_and!; try done.
    + by apply parse_status_name.
    + rewrite (updateStatus_spec env id status target j db r Hj) by done.
      simpl. apply lookup_insert_eq.
  - intros (Hj & target & r & -> & Hr & _).
    rewrite (updateStatus_spec env id (status_name target) target j db r Hj);
      [by eexists| by apply parse_status_name | done].
Qed.

Lemma serve_app sch t1 t2 db :
  serve sch (t1 ++ t2)%list db = serve sch t2 (serve sch t1 db).
Proof.
  revert db. induction t1 as [|[env req] t1 IH]; intros db; simpl; [done|]. apply IH.
Qed.

(** X11. Escalating a report [k] times, [k] at least 1, leaves it with
    severity [min (severity + k) 5]: escalation stops at 5, and a severity
    above 5 is brought down to 5 by the first escalation. *)
Theorem repeated_escalation sch id calls db r :
  reports db !! id = Some r ->
  calls <> [] ->
  exists r',
    reports (serve sch (escalations id calls) db) !! id = Some r'
    /\ r_severity r' = Z.min (r_severity r + Z.of_nat (length calls)) 5.
Proof.
  revert db r. induction calls as [|[env reason] rest IH]; intros db r Hr Hne; [done|].
  simpl. rewrite (escalateReport_spec env id reason db r Hr).
  destruct rest as [|call rest'].
  - simpl. eexists. split; [apply lookup_insert_eq|]. simpl. lia.
  - match goal with
    | |- context [serve _ _ ?d] =>
        destruct (IH d (escalate_data env r)) as (r' & Hr' & Hsev);
          [simpl; apply lookup_insert_eq | done |]
    end.
    exists r'. split; [exact Hr'|].
    rewrite Hsev. simpl r_severity. simpl length. lia.
Qed.

Lemma repeated_escalation_witness :
  exists r',
    reports (serve (mkSchema true)
               (escalations "r1" [(sample_env, None); (second_env, None);
                                  (later_env, None)])
               sample_db) !! "r1" = Some r'
    /\ r_severity r'
       = Z.min (r_severity sample_report
                + Z.of_nat (length [(sample_env, @None jsstring); (second_env, None);
                                    (later_env, None)])) 5.
Proof.
  apply (repeated_escalation (mkSchema true) "r1"
           [(sample_env, None); (second_env, None); (later_env, None)]
           sample_db sample_report); [reflexivity | discriminate].
Defined.

(** X12. A block or unblock that answers 200 writes the contractor row,
    the admin log and, when it blocks, the Assignment table: the Report, Bid
    and proof tables are as before, so a report whose Assignment was
    cancelled keeps its status. An unblock clears the reason, the time and
    the author of the block and changes no Assignment: what a block has
    cancelled stays cancelled. *)
Theorem block_and_unblock_frame env id isBlocked j db c :
  justification_rejected j = false ->
  contractors db !! id = Some c ->
  exists db' message,
    blockContractor env id isBlocked j db = (db', Success message)
    /\ reports db' = reports db
    /\ bids db' = bids db
    /\ proofs db' = proofs db
    /\ (forall i, i <> id -> contractors db' !! i = contractors db !! i)
    /\ (isBlocked <> Some true ->
        assignments db' = assignments db
        /\ exists c',
             contractors db' !! id = Some c'
             /\ c_blockReason c' = None
             /\ c_blockedAt c' = None
             /\ c_blockedBy c' = None
             /\ c_isBlocked c' = match isBlocked with
                                 | Some b => b
                                 | None => c_isBlocked c
                                 end).
Proof.
  intros Hj Hc. eexists _, _.
  split; [by apply blockContractor_spec|].
  unfold blockContractor_post.
  destruct isBlocked as [[|]|]; simpl; split_and!; try done;
    try (intros i Hi; by rewrite lookup_insert_ne).
  all: intros _; split; [done|]; eexists; split; [apply lookup_insert_eq|done].
Qed.

Lemma block_and_unblock_frame_witness :
  exists db' message,
    blockContractor later_env "c1" (Some false) sample_justification
      (blockContractor second_env "c1" (Some true) sample_justification assigned_db).1
      = (db', Success message)
    /\ reports db' = reports
         (blockContractor second_env "c1" (Some true) sample_justification assigned_db).1
    /\ bids db' = bids
         (blockContractor second_env "c1" (Some true) sample_justification assigned_db).1
    /\ proofs db' = proofs
         (blockContractor second_env "c1" (Some true) sample_justification assigned_db).1
    /\ (forall i, i <> "c1" ->
          contractors db' !! i
          = contractors
              (blockContractor second_env "c1" (Some true) sample_justification
                 assigned_db).1 !! i)
    /\ (Some false <> Some true ->
        assignments db' = assignments
          (blockContractor second_env "c1" (Some true) sample_justification assigned_db).1
        /\ exists c',
             contractors db' !! "c1" = Some c'
             /\ c_blockReason c' = None
             /\ c_blockedAt c' = None
             /\ c_blockedBy c' = None
             /\ c_isBlocked c' = false).
Proof.
  apply (block_and_unblock_frame later_env "c1" (Some false) sample_justification
           (blockContractor second_env "c1" (Some true) sample_justification
              assigned_db).1
           (block_data second_env (Some true) sample_justification sample_contractor));
    reflexivity.
Defined.

(** X13. A direct assignment to a contractor answers 200 when the
    justification passes, the report and the contractor exist and the store
    takes the row; it then adds one Assignment for the report and that
    contractor, ASSIGNED, signed by the caller, with no bid and no agreed
    cost and with the deadline given or none, and sets the report to
    ASSIGNED, changing its department only when one is given. *)
Theorem direct_assignment_effect sch env id contractorId departmentId deadline j db r :
  justification_rejected j = false ->
  reports db !! id = Some r ->
  contractorId <> "" ->
  is_Some (contractors db !! contractorId) ->
  can_assign sch env id db ->
  exists db' r',
    assignReport sch env id (Some contractorId) departmentId deadline j db
      = (db', Success "Report assigned successfully")
    /\ assignments db'
       = <[new_id env := direct_assignment env id contractorId deadline]> (assignments db)
    /\ reports db' !! id = Some r'
    /\ r_status r' = ReportStatus.ASSIGNED
    /\ r_departmentId r'
       = (if truthy_id departmentId then departmentId else r_departmentId r)
    /\ r_severity r' = r_severity r
    /\ (forall i, i <> id -> reports db' !! i = reports db !! i).
Proof.
  intros Hj Hr Hne [c Hc] [Hnew Hu].
  destruct contractorId as [|a cid]; [done|].
  unfold assignReport, assignReport_body. run_handler.
  rewrite Hj. simpl. rewrite Hr. simpl. rewrite Hc. simpl. rewrite Hnew.
  destruct (assignment_reportId_unique sch);
    [specialize (Hu eq_refl); unfold has_assignment in Hu; rewrite Hu|];
    simpl; rewrite Hr; simpl;
    (eexists _, _; split; [reflexivity|]; simpl;
     split; [done|]; split; [apply lookup_insert_eq|];
     split_and!; try done;
     intros i Hi; by rewrite lookup_insert_ne).
Qed.

Lemma direct_assignment_effect_witness :
  exists db' r',
    assignReport (mkSchema true) sample_env "r2" (Some "c2") (Some "roads") (Some 7000)
      sample_justification bidding_db = (db', Success "Report assigned successfully")
    /\ assignments db'
       = <[new_id sample_env := direct_assignment sample_env "r2" "c2" (Some 7000)]>
           (assignments bidding_db)
    /\ reports db' !! "r2" = Some r'
    /\ r_status r' = ReportStatus.ASSIGNED
    /\ r_departmentId r'
       = (if truthy_id (Some "roads") then Some "roads" else r_departmentId sample_report)
    /\ r_severity r' = r_severity sample_report
    /\ (forall i, i <> "r2" -> reports db' !! i = reports bidding_db !! i).
Proof.
  apply (direct_assignment_effect (mkSchema true) sample_env "r2" "c2" (Some "roads")
           (Some 7000) sample_justification bidding_db sample_report).
  - reflexivity.
  - reflexivity.
  - discriminate.
  - by eexists.
  - split; [reflexivity|]. intros _. reflexivity.
Defined.

(** X14. A direct assignment without a contractor id (none, or the empty
    string) answers 200 and sets the report to ASSIGNED without adding any
    Assignment: a report can be ASSIGNED with no Assignment row. *)
Theorem assignment_without_contractor sch env id contractorId departmentId deadline j db r :
  justification_rejected j = false ->
  reports db !! id = Some r ->
  truthy_id contractorId = false ->
  exists db' r',
    assignReport sch env id contractorId departmentId deadline j db
      = (db', Success "Report assigned successfully")
    /\ assignments db' = assignments db
    /\ reports db' !! id = Some r'
    /\ r_status r' = ReportStatus.ASSIGNED.
Proof.
  intros Hj Hr Hc.
  unfold assignReport, assignReport_body. run_handler.
  rewrite Hj. simpl. rewrite Hr. simpl.
  destruct contractorId as [[|a cid]|]; [|done|]; simpl; rewrite Hr; simpl;
    (eexists _, _; split; [reflexivity|]; simpl;
     split; [done|]; split; [apply lookup_insert_eq|done]).
Qed.

Lemma assignment_without_contractor_witness :
  exists db' r',
    assignReport (mkSchema true) sample_env "r1" None (Some "roads") None
      sample_justification sample_db = (db', Success "Report assigned successfully")
    /\ assignments db' = assignments sample_db
    /\ reports db' !! "r1" = Some r'
    /\ r_status r' = ReportStatus.ASSIGNED.
Proof.
  apply (assignment_without_contractor (mkSchema true) sample_env "r1" None
           (Some "roads") None sample_justification sample_db sample_report);
    reflexivity.
Defined.

(** ** The read-only routes *)

#[global] Instance by_column_total key descending : Total (by_column key descending).
Proof. intros x y. unfold by_column. destruct descending; lia. Qed.

#[global] Instance by_column_trans key descending : Transitive (by_column key descending).
Proof. intros x y z. unfold by_column. destruct descending; lia. Qed.

(** X16. A listing that is served holds at most [limit] reports, no report
    twice; each is a report of the store that passes the filter, and [total]
    counts the reports that pass the filter, whatever the page. *)
Theorem listing_page q db l :
  (getReports q db).2 = Some l ->
  (length (listed l) <= q_limit q)%nat
  /\ total l = count_reports (where_ q) db
  /\ NoDup (map lr_id (listed l))
  /\ forall x, x ∈ listed l ->
       reports db !! lr_id x = Some (lr_report x)
       /\ where_ q (lr_id x) (lr_report x) = true.
Proof.
  intros Hl. apply getReports_Some in Hl as (sorted & Ho & _ & ->). simpl.
  set (rows := filter (fun row => where_ q row.1 row.2 = true)
                 (map_to_list (reports db))) in *.
  set (page := take (q_limit q) (drop _ sorted)).
  assert (page `sublist_of` sorted) as Hpage.
  { etransitivity; [apply sublist_take|apply sublist_drop]. }
  apply ordered_Permutation in Ho.
  split_and!.
  - rewrite length_map. unfold page. rewrite length_take. lia.
  - done.
  - replace (map lr_id (map (with_priority db) page)) with (page.*1)
      by (rewrite map_map; done).
    eapply sublist_NoDup; [|apply fmap_sublist, Hpage].
    rewrite Ho.
    apply (sublist_NoDup _ (map_to_list (reports db)).*1);
      [apply NoDup_fst_map_to_list | apply fmap_sublist, sublist_filter].
  - intros x Hx. apply list_elem_of_fmap in Hx as ([i r] & -> & Hin). simpl.
    assert ((i, r) ∈ rows) as Hrow.
    { rewrite <-Ho. eapply elem_of_submseteq; [exact Hin|].
      by apply sublist_submseteq. }
    apply list_elem_of_filter in Hrow as [Hwhere Hrow].
    by apply elem_of_map_to_list in Hrow.
Qed.

Lemma listing_page_witness :
  (length (listed (mkListing
     (map (with_priority engagement_db)
        (merge_sort by_severity_upvotes_createdAt
           (map_to_list (reports engagement_db)))) 2)) <= q_limit priority_query)%nat.
Proof.
  apply (listing_page priority_query engagement_db).
  vm_compute. reflexivity.
Defined.

Lemma count_three_statuses {A} (scope : A -> bool) (status : A -> ReportStatus.t)
    (s1 s2 s3 : ReportStatus.t) (l : list A) :
  s1 <> s2 -> s1 <> s3 -> s2 <> s3 ->
  (length (filter (fun x => scope x && bool_decide (status x = s1) = true) l)
   + length (filter (fun x => scope x && bool_decide (status x = s2) = true) l)
   + length (filter (fun x => scope x && bool_decide (status x = s3) = true) l)
   <= length (filter (fun x => scope x = true) l))%nat.
Proof.
  intros H12 H13 H23. induction l as [|x l IH]; [done|].
  rewrite !filter_cons.
  repeat case_decide; simpl;
    destruct (scope x); simpl in *; repeat case_bool_decide;
    simplify_eq; solve [lia | done].
Qed.

(** X17. On the dashboard the open, in-progress and completed counts never
    add up to more than the total; the recent reports are at most five
    reports of the scope, newest first, and no report of the scope left out
    of them is newer than one of them. *)
Theorem dashboard_counts scope db :
  let stats := getDashboardStats scope db in
  (openReports stats + inProgressReports stats + completedReports stats
     <= totalReports stats)%nat
  /\ length (recentReports stats) = Nat.min 5 (totalReports stats)
  /\ StronglySorted (by_column r_createdAt true) (recentReports stats)
  /\ (forall row, row ∈ recentReports stats ->
        reports db !! row.1 = Some row.2 /\ scope row.1 row.2 = true)
  /\ (forall row id r,
        row ∈ recentReports stats ->
        reports db !! id = Some r -> scope id r = true ->
        (id, r) ∉ recentReports stats ->
        r_createdAt r <= r_createdAt row.2).
Proof.
  unfold getDashboardStats, count_reports. simpl.
  set (rows := filter (fun row => scope row.1 row.2 = true) (map_to_list (reports db))).
  set (sorted := merge_sort (by_column r_createdAt true) rows).
  assert (sorted ≡ₚ rows) as Hperm by apply merge_sort_Permutation.
  assert (StronglySorted (by_column r_createdAt true) sorted) as Hsorted
    by apply (StronglySorted_merge_sort _).
  split_and!.
  - apply (count_three_statuses (fun row => scope row.1 row.2) (fun row => r_status row.2));
      done.
  - rewrite length_take. by rewrite Hperm.
  - rewrite <-(take_drop 5 sorted) in Hsorted.
    by apply StronglySorted_app_1_l in Hsorted.
  - intros [i r] Hin. simpl.
    assert ((i, r) ∈ rows) as Hrow.
    { rewrite <-Hperm. eapply elem_of_submseteq; [exact Hin|].
      apply sublist_submseteq, sublist_take. }
    apply list_elem_of_filter in Hrow as [Hscope Hrow].
    by apply elem_of_map_to_list in Hrow.
  - intros row id r Hin Hr Hscope Hout.
    assert ((id, r) ∈ sorted) as Hsrt.
    { rewrite Hperm. apply list_elem_of_filter. split; [done|].
      by apply elem_of_map_to_list. }
    rewrite <-(take_drop 5 sorted) in Hsrt, Hsorted.
    apply elem_of_app in Hsrt as [Hhead|Htail]; [done|].
    exact (StronglySorted_app_1_elem_of _ _ _ row (id, r) Hsorted Hin Htail).
Qed.

Lemma foldl_min_le c rest : foldl Z.min c rest <= c /\ Forall (fun x => foldl Z.min c rest <= x) rest.
Proof.
  revert c. induction rest as [|x rest IH]; intros c; simpl; [by split|].
  destruct (IH (Z.min c x)) as [Hc Hrest]. split; [lia|].
  constructor; [lia|done].
Qed.

Lemma foldl_max_ge c rest : c <= foldl Z.max c rest /\ Forall (fun x => x <= foldl Z.max c rest) rest.
Proof.
  revert c. induction rest as [|x rest IH]; intros c; simpl; [by split|].
  destruct (IH (Z.max c x)) as [Hc Hrest]. split; [lia|].
  constructor; [lia|done].
Qed.

Lemma foldl_min_in c rest : foldl Z.min c rest ∈ c :: rest.
Proof.
  revert c. induction rest as [|x rest IH]; intros c; simpl; [apply list_elem_of_here|].
  specialize (IH (Z.min c x)).
  apply elem_of_cons in IH as [->|IH].
  - destruct (Z.min_spec c x) as [[_ ->]|[_ ->]]; set_solver.
  - set_solver.
Qed.

Lemma foldl_max_in c rest : foldl Z.max c rest ∈ c :: rest.
Proof.
  revert c. induction rest as [|x rest IH]; intros c; simpl; [apply list_elem_of_here|].
  specialize (IH (Z.max c x)).
  apply elem_of_cons in IH as [->|IH].
  - destruct (Z.max_spec c x) as [[_ ->]|[_ ->]]; set_solver.
  - set_solver.
Qed.

(** X18. The bid view of a report answers 404 exactly when the report is
    missing and never changes the store. The bids it returns are the bids of
    the store on that report, each once; the lowest and the highest cost are
    costs of two of these bids and bound the cost of every one of them, and
    both are 0 when the report has no bid. *)
Theorem bid_statistics id db :
  (getBids id db).1 = db
  /\ ((getBids id db).2 = inl (Failure 404 "Report not found") <-> reports db !! id = None)
  /\ forall found stats,
       (getBids id db).2 = inr (found, stats) ->
       bs_total stats = length found
       /\ NoDup found.*1
       /\ (forall i b, (i, b) ∈ found <-> bids db !! i = Some b /\ b_reportId b = id)
       /\ (found = [] -> bs_lowestCost stats = 0 /\ bs_highestCost stats = 0)
       /\ (forall row, row ∈ found ->
             bs_lowestCost stats <= b_proposedCost row.2 <= bs_highestCost stats)
       /\ (found <> [] ->
           exists cheapest dearest,
             cheapest ∈ found /\ dearest ∈ found
             /\ b_proposedCost cheapest.2 = bs_lowestCost stats
             /\ b_proposedCost dearest.2 = bs_highestCost stats).
Proof.
  unfold getBids, getBids_body. run_handler.
  destruct (reports db !! id) as [r|] eqn:Hr; simpl.
  2: { split_and!; [done|done|]. intros found stats H. discriminate H. }
  split_and!; [done|split; intros H; discriminate H|].
  intros found stats [= <- <-]. simpl.
  set (found := report_bids id db).
  split_and!.
  - done.
  - apply (sublist_NoDup _ (map_to_list (bids db)).*1);
      [apply NoDup_fst_map_to_list | apply fmap_sublist, sublist_filter].
  - intros i b. unfold found, report_bids.
    rewrite list_elem_of_filter, elem_of_map_to_list. simpl. tauto.
  - by intros ->.
  - intros row Hrow.
    assert (b_proposedCost row.2 ∈ map (fun row => b_proposedCost row.2) found) as Hc.
    { apply list_elem_of_fmap. by exists row. }
    destruct (map _ found) as [|c rest]; [by apply elem_of_nil in Hc|].
    simpl. destruct (foldl_min_le c rest) as [Hlo Hlos].
    destruct (foldl_max_ge c rest) as [Hhi His].
    rewrite Forall_forall in Hlos, His.
    apply elem_of_cons in Hc as [->|Hc]; [lia|].
    split; [by apply Hlos|by apply His].
  - intros Hne.
    destruct (map (fun row => b_proposedCost row.2) found) as [|c rest] eqn:Hcosts.
    { destruct found; [done|discriminate Hcosts]. }
    simpl.
    pose proof (foldl_min_in c rest) as Hmin.
    pose proof (foldl_max_in c rest) as Hmax.
    rewrite <-Hcosts in Hmin, Hmax.
    apply list_elem_of_fmap in Hmin as (cheapest & Hcv & Hcin).
    apply list_elem_of_fmap in Hmax as (dearest & Hdv & Hdin).
    by exists cheapest, dearest.
Qed.

(** ** The analytics window *)

Lemma length_filter_impl {A} (P Q : A -> Prop) `{!forall x, Decision (P x)}
    `{!forall x, Decision (Q x)} (l : list A) :
  (forall x, P x -> Q x) -> (length (filter P l) <= length (filter Q l))%nat.
Proof.
  intros HPQ. induction l as [|x l IH]; [done|].
  rewrite !filter_cons. repeat case_decide; simpl; try lia.
  exfalso. auto.
Qed.

Lemma count_by_status {A} (scope : A -> bool) (status : A -> ReportStatus.t) (l : list A) :
  sum_list (map (fun s => length (filter (fun x => scope x && bool_decide (status x = s) = true) l))
              all_statuses)
  = length (filter (fun x => scope x = true) l).
Proof.
  induction l as [|x l IH]; [done|].
  simpl in IH |- *. rewrite !filter_cons.
  destruct (scope x), (status x) eqn:Hs; simpl;
    repeat (case_decide; simpl in *; try done); lia.
Qed.

Lemma sum_list_nonzero (groups : list (ReportStatus.t * nat)) :
  sum_list (filter (fun g => g.2 <> 0%nat) groups).*2 = sum_list groups.*2.
Proof.
  induction groups as [|[s n] groups IH]; [done|].
  rewrite filter_cons. case_decide as Hn; simpl in Hn.
  - rewrite !fmap_cons. cbn [sum_list sum_list_with]. by rewrite IH.
  - assert (n = 0%nat) as -> by lia.
    rewrite fmap_cons. cbn [sum_list sum_list_with]. by rewrite IH.
Qed.

(** X19. In the analytics of a window the counts by status are positive
    and add up to the number of reports of the window; the window is 7, 30
    or 90 days long, 30 for any other value of [timeframe], and a longer
    window counts no fewer reports and no fewer admin actions. *)
Theorem analytics_counts timeframe clock db :
  sum_list (an_reportsByStatus (getAnalytics timeframe clock db)).*2
    = an_totalReports (getAnalytics timeframe clock db)
  /\ Forall (fun g => (0 < g.2)%nat) (an_reportsByStatus (getAnalytics timeframe clock db))
  /\ (timeframe <> "7d" -> timeframe <> "90d" ->
      getAnalytics timeframe clock db = getAnalytics "30d" clock db)
  /\ (an_totalReports (getAnalytics "7d" clock db)
        <= an_totalReports (getAnalytics "30d" clock db)
        <= an_totalReports (getAnalytics "90d" clock db))%nat
  /\ (an_adminActions (getAnalytics "7d" clock db)
        <= an_adminActions (getAnalytics "30d" clock db)
        <= an_adminActions (getAnalytics "90d" clock db))%nat.
Proof.
  split; [|split; [|split; [|split]]].
  - unfold getAnalytics, count_reports. cbn [an_reportsByStatus an_totalReports].
    rewrite sum_list_nonzero.
    rewrite <-list_fmap_compose.
    apply (count_by_status
             (fun row => analytics_startDate timeframe clock <=? r_createdAt row.2)
             (fun row => r_status row.2)).
  - unfold getAnalytics. cbn [an_reportsByStatus].
    apply Forall_forall. intros g Hg. apply list_elem_of_filter in Hg as [Hg _]. lia.
  - intros H7 H90. unfold getAnalytics, analytics_startDate.
    apply String.eqb_neq in H7, H90. rewrite H7, H90. simpl.
    by destruct (String.eqb timeframe "30d").
  - unfold getAnalytics, count_reports, analytics_startDate. simpl.
    split; apply length_filter_impl; intros [i r]; simpl; lia.
  - unfold getAnalytics, analytics_startDate. simpl.
    split; apply length_filter_impl; intros e; simpl; lia.
Qed.

Lemma analytics_counts_witness :
  getAnalytics "1y" 1000 engagement_db = getAnalytics "30d" 1000 engagement_db.
Proof.
  apply (analytics_counts "1y" 1000 engagement_db); discriminate.
Defined.

(** ** The urgency score *)

(** X20. The urgency score is at most 100 and at most the severity plus
    13. For a report with severity between 1 and 5 and no negative upvote
    count it lies between 1 and 18, so the cap of 100 is never met; upvotes
    beyond 5 add nothing. *)
Theorem urgency_bounds clock r :
  calculateUrgencyScore clock r <= 100
  /\ calculateUrgencyScore clock r <= r_severity r + 13
  /\ (1 <= r_severity r <= 5 -> 0 <= r_upvotes r ->
      1 <= calculateUrgencyScore clock r <= 18)
  /\ (5 <= r_upvotes r ->
      forall more, r_upvotes r <= more ->
        calculateUrgencyScore clock
          (mkReport (r_status r) (r_severity r) more (r_isSpam r) (r_isSensitive r)
             (r_isDuplicate r) (r_duplicateOfId r) (r_departmentId r) (r_createdAt r)
             (r_updatedAt r) (r_closedAt r) (r_completedAt r) (r_noOfDuplicates r))
        = calculateUrgencyScore clock r).
Proof.
  unfold calculateUrgencyScore. simpl.
  split_and!; [| | intros Hs Hu | intros Hu more Hmore];
    repeat case_match; lia.
Qed.

Lemma urgency_bounds_witness :
  1 <= calculateUrgencyScore 1000 sample_report <= 18.
Proof.
  apply (urgency_bounds 1000 sample_report); simpl; lia.
Defined.

(** X21. Of two reports that differ in their creation time only, the older
    one never has the higher urgency score, and the newer one has at most 5
    more; from the seventh day on the age adds nothing. *)
Theorem urgency_decreases_with_age clock r created :
  r_createdAt r <= created ->
  let newer := mkReport (r_status r) (r_severity r) (r_upvotes r) (r_isSpam r)
                 (r_isSensitive r) (r_isDuplicate r) (r_duplicateOfId r)
                 (r_departmentId r) created (r_updatedAt r) (r_closedAt r)
                 (r_completedAt r) (r_noOfDuplicates r) in
  calculateUrgencyScore clock r <= calculateUrgencyScore clock newer
  /\ calculateUrgencyScore clock newer <= calculateUrgencyScore clock r + 5
  /\ (created <= clock - 7 * 86400000 ->
      calculateUrgencyScore clock newer = calculateUrgencyScore clock r).
Proof.
  intros Hage. unfold calculateUrgencyScore. simpl.
  split_and!; [| | intros Hold]; repeat case_match; lia.
Qed.

Lemma urgency_decreases_with_age_witness :
  calculateUrgencyScore 100000000 sample_report
  <= calculateUrgencyScore 100000000
       (mkReport ReportStatus.OPEN 3 0 false false false None None 99999999 10 None None 0).
Proof.
  apply (urgency_decreases_with_age 100000000 sample_report 99999999). simpl. lia.
Defined.

(** ** Regular expressions: the matcher against what an expression denotes *)

Lemma matches_seq_inv r s w :
  Regex.matches (Regex.Seq r s) w ->
  exists u v, w = (u ++ v)%list /\ Regex.matches r u /\ Regex.matches s v.
Proof. inversion 1; subst. by eexists _, _. Qed.

Lemma nullable_matches r : Regex.nullable r = true <-> Regex.matches r [].
Proof.
  induction r as [| |p|r IHr s IHs|r IHr s IHs|r IHr]; simpl.
  - split; [done|]. inversion 1.
  - split; [constructor|done].
  - split; [done|]. inversion 1.
  - rewrite andb_true_iff, IHr, IHs. split.
    + intros [Hr Hs]. by apply (Regex.matches_seq r s [] []).
    + intros H. apply matches_seq_inv in H as (u & v & Heq & Hu & Hv).
      symmetry in Heq. by apply app_eq_nil in Heq as [-> ->].
  - rewrite orb_true_iff, IHr, IHs. split.
    + intros [H|H]; [by apply Regex.matches_alt_l|by apply Regex.matches_alt_r].
    + inversion 1; subst; auto.
  - split; [constructor|done].
Qed.

Lemma star_cons_inv r c w :
  Regex.matches (Regex.Star r) (c :: w) ->
  exists u v, w = (u ++ v)%list /\ Regex.matches r (c :: u)
              /\ Regex.matches (Regex.Star r) v.
Proof.
  intros H. remember (Regex.Star r) as star eqn:Hstar.
  remember (c :: w) as cw eqn:Hcw. revert w Hcw.
  induction H as [| | | | | |r' u v Hu _ Hv IHv]; intros w Hcw; try discriminate.
  injection Hstar as ->.
  destruct u as [|c' u]; simpl in Hcw.
  - by apply IHv.
  - injection Hcw as <- <-. by exists u, v.
Qed.

Lemma derive_matches r c w :
  Regex.matches (Regex.derive c r) w <-> Regex.matches r (c :: w).
Proof.
  revert w. induction r as [| |p|r IHr s IHs|r IHr s IHs|r IHr]; intros w; simpl.
  - split; inversion 1.
  - split; inversion 1.
  - destruct (p c) eqn:Hp; split; inversion 1; subst.
    + by constructor.
    + constructor.
    + congruence.
  - assert (Regex.matches (Regex.Seq (Regex.derive c r) s) w <->
            exists u v, w = (u ++ v)%list /\ Regex.matches r (c :: u)
                        /\ Regex.matches s v) as Hseq.
    { split.
      - intros H. apply matches_seq_inv in H as (u & v & -> & Hu & Hv).
        exists u, v. split_and!; [done| |done]. by apply IHr.
      - intros (u & v & -> & Hu & Hv). constructor; [by apply IHr|done]. }
    assert (Regex.matches (Regex.Seq r s) (c :: w) <->
            (exists u v, w = (u ++ v)%list /\ Regex.matches r (c :: u)
                         /\ Regex.matches s v)
            \/ (Regex.matches r [] /\ Regex.matches s (c :: w))) as Hcons.
    { split.
      - intros H. apply matches_seq_inv in H as (u & v & Heq & Hu & Hv).
        destruct u as [|c' u]; simpl in Heq; subst.
        + by right.
        + injection Heq as -> ->. left. by exists u, v.
      - intros [(u & v & -> & Hu & Hv)|[Hr Hs]].
        + by apply (Regex.matches_seq r s (c :: u) v).
        + by apply (Regex.matches_seq r s [] (c :: w)). }
    rewrite Hcons. destruct (Regex.nullable r) eqn:Hn.
    + split.
      * inversion 1; subst; [left; by apply Hseq|right].
        split; [by apply nullable_matches|by apply IHs].
      * intros [H|[_ H]]; [apply Regex.matches_alt_l; by apply Hseq|].
        apply Regex.matches_alt_r. by apply IHs.
    + rewrite Hseq. split; [by left|]. intros [H|[H _]]; [done|].
      apply nullable_matches in H. congruence.
  - split.
    + inversion 1; subst;
        [apply Regex.matches_alt_l; by apply IHr|apply Regex.matches_alt_r; by apply IHs].
    + inversion 1; subst;
        [apply Regex.matches_alt_l; by apply IHr|apply Regex.matches_alt_r; by apply IHs].
  - split.
    + intros H. apply matches_seq_inv in H as (u & v & -> & Hu & Hv).
      apply (Regex.matches_star_cons r (c :: u) v); [by apply IHr|done].
    + intros H. apply star_cons_inv in H as (u & v & -> & Hu & Hv).
      constructor; [by apply IHr|done].
Qed.

Lemma test_matches r w : Regex.test r w = true <-> Regex.matches r w.
Proof.
  revert r. induction w as [|c w IH]; intros r; simpl.
  - apply nullable_matches.
  - rewrite IH. apply derive_matches.
Qed.

Lemma matches_class_cons p r w :
  Regex.matches (Regex.Seq (Regex.Class p) r) w <->
  exists c rest, w = c :: rest /\ p c = true /\ Regex.matches r rest.
Proof.
  split.
  - intros H. apply matches_seq_inv in H as (u & v & -> & Hu & Hv).
    inversion Hu; subst. by eexists _, _.
  - intros (c & rest & -> & Hp & Hr).
    apply (Regex.matches_seq _ _ [c] rest); [by constructor|done].
Qed.

Lemma matches_star_class p w :
  Regex.matches (Regex.Star (Regex.Class p)) w <-> Forall (fun c => p c = true) w.
Proof.
  split.
  - intros H. remember (Regex.Star (Regex.Class p)) as star eqn:Hstar.
    induction H as [| | | | | |r u v Hu _ Hv IHv]; try discriminate; [constructor|].
    injection Hstar as ->. inversion Hu; subst. constructor; [done|by apply IHv].
  - induction 1 as [|c w Hc _ IH]; [constructor|].
    apply (Regex.matches_star_cons _ [c] w); [by constructor|done].
Qed.

Lemma matches_plus_class p w :
  Regex.matches (Regex.Plus (Regex.Class p)) w <->
  w <> [] /\ Forall (fun c => p c = true) w.
Proof.
  unfold Regex.Plus. rewrite matches_class_cons. split.
  - intros (c & rest & -> & Hp & Hrest). split; [done|].
    constructor; [done|by apply matches_star_class].
  - intros [Hne Hall]. destruct Hall as [|c rest Hc Hrest]; [done|].
    exists c, rest. split_and!; [done..|by apply matches_star_class].
Qed.

Lemma matches_times_class p n w :
  Regex.matches (Regex.Times n (Regex.Class p)) w <->
  length w = n /\ Forall (fun c => p c = true) w.
Proof.
  revert w. induction n as [|n IH]; intros w; simpl.
  - split.
    + inversion 1. by split.
    + intros [Hlen _]. apply nil_length_inv in Hlen as ->. constructor.
  - rewrite matches_class_cons. split.
    + intros (c & rest & -> & Hp & Hrest). apply IH in Hrest as [Hlen Hall].
      split; [simpl; lia|by constructor].
    + intros [Hlen Hall]. destruct Hall as [|c rest Hc Hrest]; [done|].
      exists c, rest. split_and!; [done..|]. apply IH. split; [simpl in Hlen; lia|done].
Qed.

(** ** The validators of routes/run.js *)

(** X22. A phone number is accepted exactly when it is ten ASCII digits
    of which the first is 6, 7, 8 or 9. *)
Theorem validatePhone_iff phone :
  validatePhone phone = true <->
  exists first rest,
    phone = first :: rest
    /\ (54 <= first <= 57)%N
    /\ length rest = 9%nat
    /\ Forall (fun c => (48 <= c <= 57)%N) rest.
Proof.
  unfold validatePhone, phoneRegex.
  rewrite test_matches, matches_class_cons.
  assert (forall lo hi c, ((lo <=? c) && (c <=? hi))%N = true <-> (lo <= c <= hi)%N)
    as Hrange.
  { intros lo hi c. rewrite andb_true_iff, !N.leb_le. done. }
  split.
  - intros (c & rest & -> & Hc & Hrest).
    apply matches_times_class in Hrest as [Hlen Hall].
    exists c, rest. split; [done|]. split; [by apply Hrange|]. split; [done|].
    eapply Forall_impl; [exact Hall|]. intros d Hd. unfold is_digit in Hd.
    by apply Hrange.
  - intros (c & rest & -> & Hc & Hlen & Hall).
    exists c, rest. split; [done|]. split; [by apply Hrange|].
    apply matches_times_class. split; [done|].
    eapply Forall_impl; [exact Hall|]. intros d Hd. unfold is_digit.
    by apply Hrange.
Qed.

(** X23. An e-mail address is accepted exactly when it reads
    [local@domain.tld] with three non-empty parts free of white space and
    of [@]; an accepted address therefore holds no white space and exactly
    one [@]. The domain and the last part may hold further full stops. *)
Theorem validateEmail_iff email :
  (validateEmail email = true <->
   exists local domain tld,
     email = (local ++ [commercial_at] ++ domain ++ [full_stop] ++ tld)%list
     /\ local <> [] /\ domain <> [] /\ tld <> []
     /\ Forall (fun c => is_address_unit c = true) (local ++ domain ++ tld)%list)
  /\ (validateEmail email = true ->
      Forall (fun c => is_js_whitespace c = false) email
      /\ length (filter (fun c => c = commercial_at) email) = 1%nat).
Proof.
  assert (validateEmail email = true <->
          exists local domain tld,
            email = (local ++ [commercial_at] ++ domain ++ [full_stop] ++ tld)%list
            /\ local <> [] /\ domain <> [] /\ tld <> []
            /\ Forall (fun c => is_address_unit c = true) (local ++ domain ++ tld)%list)
    as Hiff.
  { unfold validateEmail, emailRegex. rewrite test_matches. split.
    - intros H. apply matches_seq_inv in H as (local & w1 & -> & Hlocal & H1).
      apply matches_plus_class in Hlocal as [Hl Hlocal].
      apply matches_class_cons in H1 as (c1 & w2 & -> & Hc1 & H2).
      apply N.eqb_eq in Hc1 as <-.
      apply matches_seq_inv in H2 as (domain & w3 & -> & Hdomain & H3).
      apply matches_plus_class in Hdomain as [Hd Hdomain].
      apply matches_class_cons in H3 as (c2 & tld & -> & Hc2 & Htld).
      apply N.eqb_eq in Hc2 as <-.
      apply matches_plus_class in Htld as [Ht Htld].
      exists local, domain, tld. split_and!; try done.
      rewrite !Forall_app. by split_and!.
    - intros (local & domain & tld & -> & Hl & Hd & Ht & Hall).
      rewrite !Forall_app in Hall. destruct Hall as (Hlocal & Hdomain & Htld).
      apply Regex.matches_seq; [by apply matches_plus_class|].
      apply matches_class_cons. exists commercial_at, (domain ++ [full_stop] ++ tld)%list.
      split_and!; [done|by apply N.eqb_eq|].
      apply Regex.matches_seq; [by apply matches_plus_class|].
      apply matches_class_cons. exists full_stop, tld.
      split_and!; [done|by apply N.eqb_eq|by apply matches_plus_class]. }
  split; [exact Hiff|].
  intros Hok. apply Hiff in Hok as (local & domain & tld & -> & _ & _ & _ & Hall).
  rewrite !Forall_app in Hall. destruct Hall as (Hlocal & Hdomain & Htld).
  assert (forall w, Forall (fun c => is_address_unit c = true) w ->
            Forall (fun c => is_js_whitespace c = false) w
            /\ filter (fun c => c = commercial_at) w = []) as Hunit.
  { intros w Hw. induction Hw as [|c w Hc _ [IH1 IH2]]; [by split|].
    unfold is_address_unit in Hc. apply andb_prop in Hc as [Hws Hat].
    apply negb_true_iff in Hws, Hat. apply N.eqb_neq in Hat.
    split; [by constructor|]. rewrite filter_cons, decide_False by done. exact IH2. }
  destruct (Hunit _ Hlocal) as [Wl Al], (Hunit _ Hdomain) as [Wd Ad],
    (Hunit _ Htld) as [Wt At].
  split.
  - rewrite !Forall_app. split_and!; try done; by repeat constructor.
  - unfold jsstring. rewrite !filter_app, Al, Ad, At. reflexivity.
Qed.

(** ** generateSlug *)

Lemma replace_runs_Forall (p : N -> bool) by_ (Q : N -> Prop) in_run s :
  Q by_ ->
  Forall (fun c => p c = false -> Q c) s ->
  Forall Q (replace_runs p by_ in_run s).
Proof.
  intros Hby Hs. revert in_run.
  induction Hs as [|c s Hc _ IH]; intros in_run; simpl; [constructor|].
  destruct (p c) eqn:Hp.
  - destruct in_run; [apply IH|constructor; [done|apply IH]].
  - constructor; [by apply Hc|apply IH].
Qed.

Lemma replace_runs_no_adjacent by_ in_run s :
  no_adjacent (N.eqb by_) (replace_runs (N.eqb by_) by_ in_run s)
  /\ (in_run = true ->
      match replace_runs (N.eqb by_) by_ in_run s with
      | c :: _ => N.eqb by_ c = false
      | [] => True
      end).
Proof.
  revert in_run. induction s as [|c s IH]; intros in_run; simpl; [done|].
  destruct (N.eqb by_ c) eqn:Hp.
  - destruct in_run; [apply IH|].
    destruct (IH true) as [Hadj Hhead]. specialize (Hhead eq_refl).
    split; [|done]. simpl. split; [|done].
    destruct (replace_runs _ _ true s) as [|c2 rest]; [done|].
    by rewrite Hhead, andb_false_r.
  - destruct (IH false) as [Hadj _]. split; [|done].
    simpl. split; [|done].
    destruct (replace_runs _ _ false s); [done|]. by rewrite Hp.
Qed.

Lemma trimStart_id s :
  Forall (fun c => is_js_whitespace c = false) s -> trimStart s = s.
Proof. destruct 1 as [|c s Hc _]; simpl; [done|]. by rewrite Hc. Qed.

Lemma trim_id s :
  Forall (fun c => is_js_whitespace c = false) s -> trim s = s.
Proof.
  intros Hs. unfold trim, trimEnd. rewrite (trimStart_id s Hs).
  rewrite trimStart_id; [apply rev_involutive|].
  apply Forall_forall. intros c Hc. rewrite Forall_forall in Hs.
  apply Hs. apply list_elem_of_In. apply in_rev. by apply list_elem_of_In.
Qed.

Lemma slug_unit_not_whitespace c : is_slug_unit c = true -> is_js_whitespace c = false.
Proof.
  unfold is_slug_unit, is_lower, is_digit, hyphen. intros H.
  destruct (is_js_whitespace c) eqn:E; [|done]. exfalso.
  unfold is_js_whitespace in E.
  rewrite ?orb_true_iff, ?andb_true_iff, ?N.leb_le, ?N.eqb_eq in H.
  rewrite ?orb_true_iff, ?andb_true_iff, ?N.leb_le, ?N.eqb_eq in E. lia.
Qed.

(** X24. A slug without suffix is made of lower-case ASCII letters, digits
    and hyphens, with no two hyphens in a row; a suffix is appended after
    one more hyphen. The slug is trimmed after the blanks have become
    hyphens, so a name that starts with a blank gives a slug that starts
    with a hyphen. *)
Theorem generateSlug_shape toLowerCase name suffix :
  let baseSlug := generateSlug toLowerCase name [] in
  Forall (fun c => is_slug_unit c = true) baseSlug
  /\ no_adjacent (N.eqb hyphen) baseSlug
  /\ (suffix <> [] ->
      generateSlug toLowerCase name suffix = (baseSlug ++ [hyphen] ++ suffix)%list)
  /\ (forall c rest,
        toLowerCase name = c :: rest -> is_js_whitespace c = true ->
        exists tail, baseSlug = hyphen :: tail).
Proof.
  unfold generateSlug. simpl.
  set (kept := filter _ (toLowerCase name)).
  set (spaced := replace_runs is_js_whitespace hyphen false kept).
  set (dashed := replace_runs (N.eqb hyphen) hyphen false spaced).
  assert (Forall (fun c => is_slug_unit c = true) spaced) as Hspaced.
  { apply replace_runs_Forall; [done|].
    apply Forall_forall. intros c Hc Hws.
    apply list_elem_of_filter in Hc as [Hc _]. unfold is_slug_unit.
    rewrite Hws, orb_false_r in Hc. exact Hc. }
  assert (Forall (fun c => is_slug_unit c = true) dashed) as Hdashed.
  { apply replace_runs_Forall; [done|].
    eapply Forall_impl; [exact Hspaced|]. done. }
  assert (trim dashed = dashed) as Htrim.
  { apply trim_id. eapply Forall_impl; [exact Hdashed|].
    apply slug_unit_not_whitespace. }
  rewrite Htrim. split_and!.
  - exact Hdashed.
  - apply (replace_runs_no_adjacent hyphen false spaced).
  - intros Hne. by destruct suffix.
  - intros c rest Hname Hws. unfold dashed, spaced, kept. rewrite Hname.
    unfold jsstring.
    rewrite filter_cons, decide_True by (by rewrite Hws, !orb_true_r).
    simpl. rewrite Hws. simpl. by eexists.
Qed.

Lemma generateSlug_shape_witness :
  generateSlug ascii_toLowerCase (js " Ward 5") (js "east")
  = (generateSlug ascii_toLowerCase (js " Ward 5") [] ++ [hyphen] ++ js "east")%list.
Proof.
  apply (generateSlug_shape ascii_toLowerCase (js " Ward 5") (js "east")).
  discriminate.
Defined.

(** ** The properties above on sample inputs *)

Lemma authenticate_passes_iff_witness :
  authenticate ["ADMIN"; "SUPERADMIN"]
    (mkCredentials None (Some "Bearer fake-jwt-token-superadmin"))
  = inr (mkAuthUser "superAdmin" "SUPERADMIN" "Super Admin"
           "fake-jwt-token-superadmin" "superadmin@janmarg.gov.in").
Proof.
  apply (proj2 (authenticate_passes_iff ["ADMIN"; "SUPERADMIN"]
                  (mkCredentials None (Some "Bearer fake-jwt-token-superadmin")) _)).
  exists (mkFakeUser "superAdmin" "superAdmin1" "SUPERADMIN" "Super Admin"
            "fake-jwt-token-superadmin" "superadmin@janmarg.gov.in").
  split_and!; [simpl; tauto | reflexivity | reflexivity | reflexivity].
Defined.

Lemma login_token_authenticates_witness :
  exists u,
    In u FAKE_USERS /\ Some "moderator" = Some (fu_id u)
    /\ Some "mod123" = Some (fu_password u)
    /\ mkAuthUser "moderator" "MODERATOR" "Moderator User"
         "fake-jwt-token-moderator" "moderator@janmarg.gov.in"
       = userWithoutPassword u
    /\ forall requiredRoles,
         hasRequiredRole "MODERATOR" requiredRoles = true ->
         authenticate requiredRoles
           (mkCredentials (Some "fake-jwt-token-moderator") None)
           = inr (mkAuthUser "moderator" "MODERATOR" "Moderator User"
                    "fake-jwt-token-moderator" "moderator@janmarg.gov.in")
         /\ authenticate requiredRoles
              (mkCredentials None (Some "Bearer fake-jwt-token-moderator"))
            = inr (mkAuthUser "moderator" "MODERATOR" "Moderator User"
                     "fake-jwt-token-moderator" "moderator@janmarg.gov.in").
Proof.
  exact (proj1 (login_token_authenticates (Some "moderator") (Some "mod123")
                  (mkAuthUser "moderator" "MODERATOR" "Moderator User"
                     "fake-jwt-token-moderator" "moderator@janmarg.gov.in"))
               eq_refl).
Defined.

Lemma status_route_any_to_any_witness :
  exists message,
    (updateStatus later_env "r1" "OPEN" sample_justification
       (updateStatus sample_env "r1" "CLOSED" sample_justification sample_db).1).2
    = Success message.
Proof.
  apply (proj2 (status_route_any_to_any later_env "r1" "OPEN" sample_justification
                  (updateStatus sample_env "r1" "CLOSED" sample_justification
                     sample_db).1)).
  split; [reflexivity|].
  exists ReportStatus.OPEN, (status_data sample_env ReportStatus.CLOSED sample_report).
  split_and!; reflexivity.
Defined.

Lemma validatePhone_iff_witness :
  exists first rest,
    js "9876543210" = first :: rest
    /\ (54 <= first <= 57)%N
    /\ length rest = 9%nat
    /\ Forall (fun c => (48 <= c <= 57)%N) rest.
Proof.
  apply (proj1 (validatePhone_iff (js "9876543210"))). reflexivity.
Defined.

Lemma validateEmail_iff_witness :
  Forall (fun c => is_js_whitespace c = false) (js "ward.officer@janmarg.gov.in")
  /\ length (filter (fun c => c = commercial_at) (js "ward.officer@janmarg.gov.in"))
     = 1%nat.
Proof.
  apply (proj2 (validateEmail_iff (js "ward.officer@janmarg.gov.in"))). reflexivity.
Defined.
